(** * ipinfo: a shallow embedding of [main.go]

    The server answers IP-enrichment queries from two MaxMind-format
    databases and lets an operator reload either database at run time.

    The embedding follows [main.go] function by function.  Library calls
    and accesses to the package-level variables are the atomic actions of
    a small program type [prog]; one definition of every handler is then
    given two semantics:

    - [run], which executes a program to completion (one request at a
      time), and
    - [sched], which interleaves the actions of several request handlers
      (every request is served on a goroutine of its own). *)

From stdpp Require Import gmap strings list.
From Stdlib Require Import Strings.Byte.

(** ** Data from the libraries *)

(** [net.IP] is a byte slice. *)
Definition IP : Type := list byte.

(** Go's [error] values that occur in the program: the one built by
    [fmt.Errorf(format, arg)] in [getAS]/[getLocation], and the errors
    handed back by the database library. *)
Inductive error : Type :=
| Errorf (format : string) (arg : string)
| LibError (msg : string).

Inductive result (A : Type) : Type :=
| Ok (a : A)
| Err (e : error).
Arguments Ok {A} a.
Arguments Err {A} e.

(** Go's [m[k]] on a [map[string]string]: the zero value when [k] is absent. *)
Definition index (m : gmap string string) (k : string) : string :=
  match m !! k with
  | Some v => v
  | None => ""
  end.

(** The parts of [geoip2.ASN] and [geoip2.City] that [main.go] reads. *)
Module geoip2.

Record ASN : Type := {
  AutonomousSystemNumber : N;
  AutonomousSystemOrganization : string
}.

(** [City_Names] is [City.Names], [Continent_Code] is [Continent.Code], ... *)
Record City : Type := {
  City_Names : gmap string string;
  Continent_Code : string;
  Continent_Names : gmap string string;
  Country_IsoCode : string;
  Country_Names : gmap string string
}.

End geoip2.

(** What an opened database answers: the two lookups used by the program. *)
Record mmdb : Type := {
  mmdb_ASN : IP -> result geoip2.ASN;
  mmdb_City : IP -> result geoip2.City
}.

(** A [*geoip2.Reader] is a handle into the store of readers; a reader is
    the database it was opened on, and whether [Close] was called on it. *)
Definition handle : Type := nat.

Record Reader : Type := {
  db : mmdb;
  closed : bool
}.

Definition close_reader (r : Reader) : Reader :=
  {| db := db r; closed := true |}.

(** The answer of a lookup on a reader that has been closed, as the
    library gives it when the [Close] is over before the lookup starts.
    The properties on closed readers below are stated on the events, not
    on this answer. *)
Definition closed_database : error :=
  LibError "cannot call Lookup on a closed database".

Definition invalid_reader : error :=
  LibError "invalid reader".

(** ** Data of the program *)

Record as_ : Type := {
  Number : N;
  Name : string
}.

Record location : Type := {
  Continent : string;
  ContinentCode : string;
  Country : string;
  CountryCode : string;
  City : string
}.

Record ipinfo : Type := {
  AS : as_;
  Location : location
}.

(** Go's zero values [as{}] and [location{}]. *)
Definition as_zero : as_ := {| Number := 0%N; Name := "" |}.

Definition location_zero : location :=
  {| Continent := ""; ContinentCode := ""; Country := "";
     CountryCode := ""; City := "" |}.

Definition defaultAddr : string := ":8080".
Definition defaultMode : string := "release".
Definition defaultLang : string := "en".
Definition defaultAsnDB : string := "./dbip-asn-lite-2021-06.mmdb".
Definition defaultGeoDB : string := "./dbip-city-lite-2021-06.mmdb".

(** ** State *)

(** What happened, newest first: calls into the database library and
    assignments to the two reader variables. *)
Inductive event : Type :=
| EvOpen (file : string) (h : option handle)
| EvClose (h : handle)
| EvSetAsnReader (h : handle)
| EvSetLocReader (h : handle)
| EvASN (h : handle) (ip : IP)
| EvCity (h : handle) (ip : IP).

(** The package-level variables ([addr], [asnDB], [geoDB], [lang],
    [asnReader], [locReader]) as the handlers of [main] see them, the
    files on disk as [geoip2.Open] sees them, and the readers opened so far. *)
Record State : Type := {
  files : string -> result mmdb;
  heap : list Reader;
  addr : string;
  asnDB : string;
  geoDB : string;
  lang : string;
  asnReader : handle;
  locReader : handle;
  log : list event
}.

Definition with_heap (hp : list Reader) (ev : event) (st : State) : State :=
  {| files := files st; heap := hp;
     addr := addr st; asnDB := asnDB st; geoDB := geoDB st; lang := lang st;
     asnReader := asnReader st; locReader := locReader st;
     log := ev :: log st |}.

Definition with_asnReader (h : handle) (st : State) : State :=
  {| files := files st; heap := heap st;
     addr := addr st; asnDB := asnDB st; geoDB := geoDB st; lang := lang st;
     asnReader := h; locReader := locReader st;
     log := EvSetAsnReader h :: log st |}.

Definition with_locReader (h : handle) (st : State) : State :=
  {| files := files st; heap := heap st;
     addr := addr st; asnDB := asnDB st; geoDB := geoDB st; lang := lang st;
     asnReader := asnReader st; locReader := h;
     log := EvSetLocReader h :: log st |}.

(** The operator replaces a database file on disk. *)
Definition with_file (file : string) (d : result mmdb) (st : State) : State :=
  {| files := fun f => if decide (f = file) then d else files st f;
     heap := heap st;
     addr := addr st; asnDB := asnDB st; geoDB := geoDB st; lang := lang st;
     asnReader := asnReader st; locReader := locReader st;
     log := log st |}.

(** The same process started with another language. *)
Definition with_lang (l : string) (st : State) : State :=
  {| files := files st; heap := heap st;
     addr := addr st; asnDB := asnDB st; geoDB := geoDB st; lang := l;
     asnReader := asnReader st; locReader := locReader st;
     log := log st |}.

(** ** The database library on the store of readers *)

(** [geoip2.Open]: a fresh reader on the content of the file, or the error. *)
Definition geoip2_Open (fs : string -> result mmdb) (hp : list Reader)
    (file : string) : result handle * list Reader :=
  match fs file with
  | Ok d => (Ok (length hp), hp ++ [{| db := d; closed := false |}])
  | Err e => (Err e, hp)
  end.

(** [Reader.Close]. *)
Definition geoip2_Close (hp : list Reader) (h : handle) : list Reader :=
  alter close_reader h hp.

(** [Reader.ASN] and [Reader.City]. *)
Definition geoip2_ASN (hp : list Reader) (h : handle) (ip : IP)
    : result geoip2.ASN :=
  match hp !! h with
  | Some r => if closed r then Err closed_database else mmdb_ASN (db r) ip
  | None => Err invalid_reader
  end.

Definition geoip2_City (hp : list Reader) (h : handle) (ip : IP)
    : result geoip2.City :=
  match hp !! h with
  | Some r => if closed r then Err closed_database else mmdb_City (db r) ip
  | None => Err invalid_reader
  end.

Definition opened (r : result handle) : option handle :=
  match r with
  | Ok h => Some h
  | Err _ => None
  end.

(** ** Programs *)

(** The atomic actions of a handler. *)
Inductive eff : Type -> Type :=
| GetAsnDB : eff string
| GetGeoDB : eff string
| GetLang : eff string
| GetAsnReader : eff handle
| SetAsnReader (h : handle) : eff unit
| GetLocReader : eff handle
| SetLocReader (h : handle) : eff unit
| Open (file : string) : eff (result handle)
| Close (h : handle) : eff unit
| ASN (h : handle) (ip : IP) : eff (result geoip2.ASN)
| CityOf (h : handle) (ip : IP) : eff (result geoip2.City).

Inductive prog (A : Type) : Type :=
| Ret (a : A)
| Vis {B : Type} (e : eff B) (k : B -> prog A).
Arguments Ret {A} a.
Arguments Vis {A B} e k.

Fixpoint bind {A B : Type} (p : prog A) (f : A -> prog B) : prog B :=
  match p with
  | Ret a => f a
  | Vis e k => Vis e (fun b => bind (k b) f)
  end.

Definition act {B : Type} (e : eff B) : prog B := Vis e Ret.

Notation "x <- p ;; q" := (bind p (fun x => q))
  (at level 20, p at level 99, q at level 200, only parsing).

(** One atomic action on the state. *)
Definition denote {B : Type} (e : eff B) (st : State) : B * State :=
  match e in eff T return T * State with
  | GetAsnDB => (asnDB st, st)
  | GetGeoDB => (geoDB st, st)
  | GetLang => (lang st, st)
  | GetAsnReader => (asnReader st, st)
  | SetAsnReader h => (tt, with_asnReader h st)
  | GetLocReader => (locReader st, st)
  | SetLocReader h => (tt, with_locReader h st)
  | Open file =>
      let '(r, hp) := geoip2_Open (files st) (heap st) file in
      (r, with_heap hp (EvOpen file (opened r)) st)
  | Close h => (tt, with_heap (geoip2_Close (heap st) h) (EvClose h) st)
  | ASN h ip => (geoip2_ASN (heap st) h ip, with_heap (heap st) (EvASN h ip) st)
  | CityOf h ip =>
      (geoip2_City (heap st) h ip, with_heap (heap st) (EvCity h ip) st)
  end.

(** A program run to completion, nothing else running in between. *)
Fixpoint run {A : Type} (p : prog A) (st : State) : A * State :=
  match p with
  | Ret a => (a, st)
  | Vis e k => let '(b, st') := denote e st in run (k b) st'
  end.

(** ** The HTTP boundary *)

(** [gin.Context]: the route parameters on the way in. *)
Record Context : Type := {
  Params : list (string * string)
}.

(** [c.Param(key)]: the value of the first parameter of that name, or [""]. *)
Fixpoint Param_in (ps : list (string * string)) (key : string) : string :=
  match ps with
  | [] => ""
  | (k, v) :: ps' => if String.eqb k key then v else Param_in ps' key
  end.

Definition Param (c : Context) (key : string) : string :=
  Param_in (Params c) key.

(** A value in a [gin.H]: a string constant, or [err.Error()]. *)
Inductive jvalue : Type :=
| JStr (s : string)
| JErr (e : error).

(** What [c.JSON(code, obj)] is called with. *)
Inductive body : Type :=
| H (h : gmap string jvalue)
| JAs (a : as_)
| JLocation (l : location)
| JIPInfo (i : ipinfo).

Record Response : Type := {
  status : nat;
  payload : body
}.

Definition StatusOK : nat := 200.
Definition StatusInternalServerError : nat := 500.

Definition JSON (code : nat) (obj : body) : prog Response :=
  Ret {| status := code; payload := obj |}.

(** The routes registered in [main]. *)
Inductive Request : Type :=
| GET_asn_reload (c : Context)
| GET_asn_ip (c : Context)
| GET_geo_reload (c : Context)
| GET_geo_ip (c : Context)
| GET_ipinfo_ip (c : Context).

(** What the process is started with: the environment, and the flags
    given on the command line (after a successful [flag.Parse]). *)
Definition Getenv_or (getenv : string -> string) (key def : string) : string :=
  if String.eqb (getenv key) "" then def else getenv key.

Definition flag_String (args : gmap string string) (name value : string)
    : string :=
  match args !! name with
  | Some v => v
  | None => value
  end.

Definition languages : list string :=
  ["en"; "de"; "es"; "fr"; "ja"; "pt-BR"; "ru"; "zh-CN"].

(** The [switch *lang] of [init]. *)
Definition switch_lang (l : string) : string :=
  if existsb (String.eqb l) languages then l else "en".

(** How [init] ends. *)
Inductive boot : Type :=
| Serving (st : State)
| Panic (e : error).

(** No query on a reader after [Close] was called on it (newest event first). *)
Definition closes (h : handle) (ev : event) : bool :=
  match ev with
  | EvClose h' => Nat.eqb h h'
  | _ => false
  end.

Definition uses_closed (ev : event) (before : list event) : bool :=
  match ev with
  | EvASN h _ | EvCity h _ => existsb (closes h) before
  | _ => false
  end.

Fixpoint safe (l : list event) : bool :=
  match l with
  | [] => true
  | ev :: before => negb (uses_closed ev before) && safe before
  end.

Section Server.

(** [net.ParseIP]: [None] is Go's [nil]. *)
Variable ParseIP : string -> option IP.

(** The modes [gin.SetMode] accepts; it panics on any other. *)
Variable ginModeValid : string -> bool.

Definition loadDB (file : string) : prog (result handle) :=
  act (Open file).

Definition unloadDB (db : handle) : prog unit :=
  act (Close db).

Definition getAS (ip : string) : prog (as_ * option error) :=
  match ParseIP ip with
  | None => Ret (as_zero, Some (Errorf "invalid ip address %q" ip))
  | Some ipaddr =>
      r <- act GetAsnReader ;;
      res <- act (ASN r ipaddr) ;;
      match res with
      | Err err => Ret (as_zero, Some err)
      | Ok data =>
          Ret ({| Number := geoip2.AutonomousSystemNumber data;
                  Name := geoip2.AutonomousSystemOrganization data |}, None)
      end
  end.

Definition getLocation (ip : string) : prog (location * option error) :=
  match ParseIP ip with
  | None => Ret (location_zero, Some (Errorf "invalid ip address %q" ip))
  | Some ipaddr =>
      r <- act GetLocReader ;;
      res <- act (CityOf r ipaddr) ;;
      match res with
      | Err err => Ret (location_zero, Some err)
      | Ok geo =>
          l1 <- act GetLang ;;
          l2 <- act GetLang ;;
          l3 <- act GetLang ;;
          Ret ({| Continent := index (geoip2.Continent_Names geo) l1;
                  ContinentCode := geoip2.Continent_Code geo;
                  Country := index (geoip2.Country_Names geo) l2;
                  CountryCode := geoip2.Country_IsoCode geo;
                  City := index (geoip2.City_Names geo) l3 |}, None)
      end
  end.

Definition getIPInfo (ip : string) : prog (ipinfo * option error) :=
  a <- getAS ip ;;
  l <- getLocation ip ;;
  Ret ({| AS := fst a; Location := fst l |}, snd l).

(** [GET /asn/reload] *)
Definition asn_reload (c : Context) : prog Response :=
  file <- act GetAsnDB ;;
  r <- loadDB file ;;
  match r with
  | Err err =>
      JSON StatusInternalServerError
        (H (<["error" := JErr err]>
             (<["message" :=
                  JStr "failed to load database; using previous one..."]> ∅)))
  | Ok newReader =>
      old <- act GetAsnReader ;;
      _ <- unloadDB old ;;
      _ <- act (SetAsnReader newReader) ;;
      JSON StatusOK
        (H (<["message" := JStr "asn database reloaded successfully"]> ∅))
  end.

(** [GET /asn/:ip] *)
Definition asn_ip (c : Context) : prog Response :=
  r <- getAS (Param c "ip") ;;
  match snd r with
  | Some err => JSON StatusInternalServerError (H (<["error" := JErr err]> ∅))
  | None => JSON StatusOK (JAs (fst r))
  end.

(** [GET /geo/reload] *)
Definition geo_reload (c : Context) : prog Response :=
  file <- act GetGeoDB ;;
  r <- loadDB file ;;
  match r with
  | Err err =>
      JSON StatusInternalServerError
        (H (<["error" := JErr err]>
             (<["message" :=
                  JStr "failed to load database; using previous one..."]> ∅)))
  | Ok newReader =>
      old <- act GetLocReader ;;
      _ <- unloadDB old ;;
      _ <- act (SetLocReader newReader) ;;
      JSON StatusOK
        (H (<["message" := JStr "geoip database reloaded successfully"]> ∅))
  end.

(** [GET /geo/:ip] *)
Definition geo_ip (c : Context) : prog Response :=
  r <- getLocation (Param c "ip") ;;
  match snd r with
  | Some err => JSON StatusInternalServerError (H (<["error" := JErr err]> ∅))
  | None => JSON StatusOK (JLocation (fst r))
  end.

(** [GET /ipinfo/:ip] *)
Definition ipinfo_ip (c : Context) : prog Response :=
  r <- getIPInfo (Param c "ip") ;;
  match snd r with
  | Some err => JSON StatusInternalServerError (H (<["error" := JErr err]> ∅))
  | None => JSON StatusOK (JIPInfo (fst r))
  end.

Definition handler (r : Request) : prog Response :=
  match r with
  | GET_asn_reload c => asn_reload c
  | GET_asn_ip c => asn_ip c
  | GET_geo_reload c => geo_reload c
  | GET_geo_ip c => geo_ip c
  | GET_ipinfo_ip c => ipinfo_ip c
  end.

(** [init].  The two reader variables are [nil] until they are assigned
    here; [0] stands for [nil] in the state the loads start from, and
    nothing reads it. *)
Definition init (getenv : string -> string) (args : gmap string string)
    (fs : string -> result mmdb) : boot :=
  let a := Getenv_or getenv "IPINFO_ADDR" defaultAddr in
  let m := Getenv_or getenv "IPINFO_MODE" defaultMode in
  let aDB := Getenv_or getenv "IPINFO_DB_ASN" defaultAsnDB in
  let gDB := Getenv_or getenv "IPINFO_DB_GEOIP" defaultGeoDB in
  let l := Getenv_or getenv "IPINFO_LANG" defaultLang in
  let mode := flag_String args "m" m in
  let st0 :=
    {| files := fs; heap := [];
       addr := flag_String args "a" a;
       asnDB := flag_String args "db_asn" aDB;
       geoDB := flag_String args "db_geoip" gDB;
       lang := switch_lang (flag_String args "l" l);
       asnReader := 0; locReader := 0; log := [] |} in
  if ginModeValid mode then
    let '(r1, st1) := run (loadDB (asnDB st0)) st0 in
    match r1 with
    | Err err => Panic err
    | Ok h1 =>
        let st2 := with_asnReader h1 st1 in
        let '(r2, st3) := run (loadDB (geoDB st2)) st2 in
        match r2 with
        | Err err => Panic err
        | Ok h2 => Serving (with_locReader h2 st3)
        end
    end
  else Panic (LibError "gin mode unknown").

(** *** Requests on goroutines of their own *)

(** The handlers in flight, each at its next atomic action. *)
Definition pool : Type := list (prog Response).

(** The scheduler lets handler [i] do its next action. *)
Definition sched_step (cfg : State * pool) (i : nat) : State * pool :=
  match snd cfg !! i with
  | Some (Vis e k) =>
      let '(b, st') := denote e (fst cfg) in (st', <[i := k b]> (snd cfg))
  | _ => cfg
  end.

Definition sched (order : list nat) (cfg : State * pool) : State * pool :=
  foldl sched_step cfg order.

Definition spawn (rs : list Request) : pool := map handler rs.

(** *** The life of a server *)

(** What happens to a running server: a request is served to its end
    with nothing else in flight, or several requests are in flight
    together and their actions are interleaved in some order, or the
    operator puts another file in place. *)
Inductive action : Type :=
| Serve (r : Request)
| Together (rs : list Request) (order : list nat)
| Install (file : string) (d : result mmdb).

Definition perform (st : State) (a : action) : State :=
  match a with
  | Serve r => snd (run (handler r) st)
  | Together rs order => fst (sched order (st, spawn rs))
  | Install file d => with_file file d st
  end.

Definition perform_all (acts : list action) (st : State) : State :=
  foldl perform st acts.

(** No reload is among the requests that are in flight together. *)
Definition is_reload (r : Request) : bool :=
  match r with
  | GET_asn_reload _ | GET_geo_reload _ => true
  | _ => false
  end.

Definition reload_alone (a : action) : bool :=
  match a with
  | Together rs _ => forallb (fun r => negb (is_reload r)) rs
  | _ => true
  end.

End Server.

(** ** A fixture

    A small installation to run the program on: three addresses, an ASN
    database, a city database, and a later edition of the ASN database. *)
Module Fixture.

Definition google : IP := [x08; x08; x08; x08].
Definition cloudflare : IP := [x01; x01; x01; x01].
Definition quad9 : IP := [x09; x09; x09; x09].

Definition ParseIP (s : string) : option IP :=
  if String.eqb s "8.8.8.8" then Some google
  else if String.eqb s "1.1.1.1" then Some cloudflare
  else if String.eqb s "9.9.9.9" then Some quad9
  else None.

Definition ginModeValid (m : string) : bool :=
  existsb (String.eqb m) ["debug"; "release"; "test"].

Fixpoint ip_eqb (a b : IP) : bool :=
  match a, b with
  | [], [] => true
  | x :: a', y :: b' => Byte.eqb x y && ip_eqb a' b'
  | _, _ => false
  end.

Definition no_record : error := LibError "no record for this address".
Definition wrong_kind : error := LibError "method not supported by database".
Definition no_such_file : error := LibError "open: no such file or directory".

Definition asn_db : mmdb :=
  {| mmdb_ASN := fun ip =>
       if ip_eqb ip google then
         Ok {| geoip2.AutonomousSystemNumber := 15169%N;
               geoip2.AutonomousSystemOrganization := "Google LLC" |}
       else if ip_eqb ip quad9 then
         Ok {| geoip2.AutonomousSystemNumber := 19281%N;
               geoip2.AutonomousSystemOrganization := "Quad9" |}
       else Err no_record;
     mmdb_City := fun _ => Err wrong_kind |}.

(** A later edition: Google's organization is spelled differently. *)
Definition asn_db' : mmdb :=
  {| mmdb_ASN := fun ip =>
       if ip_eqb ip google then
         Ok {| geoip2.AutonomousSystemNumber := 15169%N;
               geoip2.AutonomousSystemOrganization := "GOOGLE" |}
       else Err no_record;
     mmdb_City := fun _ => Err wrong_kind |}.

Definition mountain_view : geoip2.City :=
  {| geoip2.City_Names :=
       <["en" := "Mountain View"]> (<["ja" := "マウンテンビュー"]> ∅);
     geoip2.Continent_Code := "NA";
     geoip2.Continent_Names :=
       <["en" := "North America"]> (<["de" := "Nordamerika"]>
       (<["fr" := "Amérique du Nord"]> ∅));
     geoip2.Country_IsoCode := "US";
     geoip2.Country_Names :=
       <["en" := "United States"]> (<["de" := "USA"]>
       (<["fr" := "États-Unis"]> ∅)) |}.

Definition sydney : geoip2.City :=
  {| geoip2.City_Names := <["en" := "Sydney"]> ∅;
     geoip2.Continent_Code := "OC";
     geoip2.Continent_Names :=
       <["en" := "Oceania"]> (<["de" := "Ozeanien"]> ∅);
     geoip2.Country_IsoCode := "AU";
     geoip2.Country_Names :=
       <["en" := "Australia"]> (<["de" := "Australien"]> ∅) |}.

Definition city_db : mmdb :=
  {| mmdb_ASN := fun _ => Err wrong_kind;
     mmdb_City := fun ip =>
       if ip_eqb ip google then Ok mountain_view
       else if ip_eqb ip cloudflare then Ok sydney
       else Err no_record |}.

Definition disk (file : string) : result mmdb :=
  if String.eqb file defaultAsnDB then Ok asn_db
  else if String.eqb file defaultGeoDB then Ok city_db
  else Err no_such_file.

(** The operator asked for a language that is not on the list. *)
Definition getenv (key : string) : string :=
  if String.eqb key "IPINFO_LANG" then "nl" else "".

Definition no_args : gmap string string := ∅.

(** The server as [init] leaves it on this installation. *)
Definition started : State :=
  {| files := disk;
     heap := [ {| db := asn_db; closed := false |};
               {| db := city_db; closed := false |} ];
     addr := defaultAddr; asnDB := defaultAsnDB; geoDB := defaultGeoDB;
     lang := "en";
     asnReader := 0; locReader := 1;
     log := [ EvSetLocReader 1; EvOpen defaultGeoDB (Some 1);
              EvSetAsnReader 0; EvOpen defaultAsnDB (Some 0) ] |}.

(** The same server speaking French. *)
Definition started_fr : State := with_lang "fr" started.

(** The ASN file has been removed from the disk. *)
Definition asn_file_gone : State :=
  with_file defaultAsnDB (Err no_such_file) started.

(** A later edition of the ASN file has been put in place. *)
Definition asn_file_updated : State :=
  with_file defaultAsnDB (Ok asn_db') started.

(** Both files have been removed. *)
Definition files_gone : State :=
  with_file defaultGeoDB (Err no_such_file) asn_file_gone.

Definition ctx (ip : string) : Context := {| Params := [("ip", ip)] |}.
Definition no_params : Context := {| Params := [] |}.

(** A reload of the ASN database and a lookup, in flight together. *)
Definition reload_and_lookup : list Request :=
  [GET_asn_reload no_params; GET_asn_ip (ctx "8.8.8.8")].

(** The reload runs up to and including its [Close]; then the lookup runs
    to its end. *)
Definition lookup_after_close : list nat := [0; 0; 0; 0; 1; 1].

(** A day of operation: lookups in flight together, reloads on their own. *)
Definition day : list action :=
  [ Serve (GET_asn_ip (ctx "8.8.8.8"));
    Install defaultAsnDB (Ok asn_db');
    Serve (GET_asn_reload no_params);
    Together [ GET_ipinfo_ip (ctx "8.8.8.8"); GET_asn_ip (ctx "9.9.9.9");
               GET_geo_ip (ctx "1.1.1.1") ]
             [0; 1; 2; 2; 0; 1; 0; 2; 0; 0; 2; 0; 2; 0];
    Install defaultGeoDB (Err no_such_file);
    Serve (GET_geo_reload no_params);
    Serve (GET_geo_ip (ctx "1.1.1.1")) ].


(** Another installation: the city database is elsewhere, and the address
    and the language are given on the command line as well. *)
Definition getenv' (key : string) : string :=
  if String.eqb key "IPINFO_ADDR" then ":9090"
  else if String.eqb key "IPINFO_DB_GEOIP" then "/data/city.mmdb"
  else if String.eqb key "IPINFO_LANG" then "de"
  else "".

Definition args' : gmap string string :=
  <["a" := ":7070"]> (<["l" := "ja"]> ∅).

Definition disk' (file : string) : result mmdb :=
  if String.eqb file defaultAsnDB then Ok asn_db
  else if String.eqb file "/data/city.mmdb" then Ok city_db
  else Err no_such_file.

Definition started' : State :=
  {| files := disk';
     heap := [ {| db := asn_db; closed := false |};
               {| db := city_db; closed := false |} ];
     addr := ":7070"; asnDB := defaultAsnDB; geoDB := "/data/city.mmdb";
     lang := "ja";
     asnReader := 0; locReader := 1;
     log := [ EvSetLocReader 1; EvOpen "/data/city.mmdb" (Some 1);
              EvSetAsnReader 0; EvOpen defaultAsnDB (Some 0) ] |}.

(** The city database is missing at startup. *)
Definition disk_without_city (file : string) : result mmdb :=
  if String.eqb file defaultAsnDB then Ok asn_db else Err no_such_file.

(** A mode that gin does not know. *)
Definition args_bad_mode : gmap string string := <["m" := "production"]> ∅.

(** Three lookups in flight together, and an order of their actions. *)
Definition lookups : list Request :=
  [ GET_ipinfo_ip (ctx "8.8.8.8"); GET_asn_ip (ctx "9.9.9.9");
    GET_geo_ip (ctx "1.1.1.1") ].

Definition interleaved : list nat :=
  [0; 1; 2; 2; 0; 1; 0; 2; 0; 0; 2; 0; 2; 0].


End Fixture.

(** ** Notions used in the properties *)

(** The configuration of a state: the variables that [init] sets from the
    environment and the flags. *)
Definition same_config (st st' : State) : Prop :=
  addr st' = addr st /\ asnDB st' = asnDB st /\ geoDB st' = geoDB st
  /\ lang st' = lang st.

(** Two states that differ in the log only. *)
Definition same_but_log (st st' : State) : Prop :=
  files st' = files st /\ heap st' = heap st /\ same_config st st'
  /\ asnReader st' = asnReader st /\ locReader st' = locReader st.

(** The events between two states of one execution, oldest first. *)
Definition new_events (st st' : State) : list event :=
  rev (take (length (log st') - length (log st)) (log st')).

(** The files that were opened in a list of events. *)
Definition opened_file (ev : event) : option string :=
  match ev with
  | EvOpen file _ => Some file
  | _ => None
  end.

Definition opened_files (evs : list event) : list string :=
  omap opened_file evs.

(** The order of a reload in which the new reader is stored first and the
    reader it replaces is closed last. *)
Definition open_store_close (evs : list event) : Prop :=
  exists file h old,
    evs = [EvOpen file (Some h); EvSetAsnReader h; EvClose old]
    \/ evs = [EvOpen file (Some h); EvSetLocReader h; EvClose old].

(** The order in which the reader in use is closed before the new one is
    stored. *)
Definition open_close_store (evs : list event) : Prop :=
  exists file h old,
    evs = [EvOpen file (Some h); EvClose old; EvSetAsnReader h]
    \/ evs = [EvOpen file (Some h); EvClose old; EvSetLocReader h].

(** An event that is not a [Close]. *)
Definition closes_none (ev : event) : Prop :=
  forall h, closes h ev = false.

(** A reader that can be asked: it is in the store and it is not closed. *)
Definition open_reader (hp : list Reader) (h : handle) : Prop :=
  exists r, hp !! h = Some r /\ closed r = false.

(** The state of a server between two requests. *)
Record serving (st : State) : Prop := {
  asn_open : open_reader (heap st) (asnReader st);
  loc_open : open_reader (heap st) (locReader st);
  readers_differ : asnReader st <> locReader st;
  log_safe : safe (log st) = true;
  log_closed : forall h,
    existsb (closes h) (log st) = true ->
    exists r, heap st !! h = Some r /\ closed r = true
}.

(** A program that does nothing but read variables and ask the readers
    [ha] and [hl]. *)
Fixpoint lookup_only {A : Type} (ha hl : handle) (p : prog A) : Prop :=
  match p with
  | Ret _ => True
  | Vis e k =>
      match e in eff B return (B -> Prop) -> Prop with
      | GetLang => fun rest => forall l, rest l
      | GetAsnReader => fun rest => rest ha
      | GetLocReader => fun rest => rest hl
      | ASN h _ => fun rest => h = ha /\ forall r, rest r
      | CityOf h _ => fun rest => h = hl /\ forall r, rest r
      | _ => fun _ => False
      end (fun b => lookup_only ha hl (k b))
  end.

(** The number of actions that a program performs from a state. *)
Fixpoint actions {A : Type} (p : prog A) (st : State) : nat :=
  match p with
  | Ret _ => 0
  | Vis e k => let '(b, st') := denote e st in S (actions (k b) st')
  end.

(** ** Notions used in the further properties *)

(** The database behind a reader variable. *)
Definition current (hp : list Reader) (h : handle) : option mmdb :=
  db <$> hp !! h.

(** What [getAS] and [getLocation] return on the answer of a reader. *)
Definition as_of (r : result geoip2.ASN) : as_ * option error :=
  match r with
  | Ok data =>
      ({| Number := geoip2.AutonomousSystemNumber data;
          Name := geoip2.AutonomousSystemOrganization data |}, None)
  | Err err => (as_zero, Some err)
  end.

Definition location_of (l : string) (r : result geoip2.City)
    : location * option error :=
  match r with
  | Ok geo =>
      ({| Continent := index (geoip2.Continent_Names geo) l;
          ContinentCode := geoip2.Continent_Code geo;
          Country := index (geoip2.Country_Names geo) l;
          CountryCode := geoip2.Country_IsoCode geo;
          City := index (geoip2.City_Names geo) l |}, None)
  | Err err => (location_zero, Some err)
  end.

(** The response [c.JSON(http.StatusInternalServerError,
    gin.H{"error": err.Error()})]. *)
Definition error_response (err : error) : Response :=
  {| status := StatusInternalServerError;
     payload := H (<["error" := JErr err]> ∅) |}.

(** A lookup on a reader. *)
Definition is_query (ev : event) : bool :=
  match ev with
  | EvASN _ _ | EvCity _ _ => true
  | _ => false
  end.

(** No reader is closed twice (newest event first). *)
Definition closes_again (ev : event) (before : list event) : bool :=
  match ev with
  | EvClose h => existsb (closes h) before
  | _ => false
  end.

Fixpoint closed_once (l : list event) : bool :=
  match l with
  | [] => true
  | ev :: before => negb (closes_again ev before) && closed_once before
  end.

(** The readers that are open are the two in use, and nothing was closed
    twice. *)
Record tidy (st : State) : Prop := {
  only_current_open : forall h,
    open_reader (heap st) h -> h = asnReader st \/ h = locReader st;
  log_closed_once : closed_once (log st) = true
}.

(** How [init] settles one setting: the flag when it is given on the
    command line, else the environment variable when it is not empty,
    else the default. *)
Definition resolved (getenv : string -> string) (args : gmap string string)
    (flag env def value : string) : Prop :=
  (forall v, args !! flag = Some v -> value = v)
  /\ (args !! flag = None -> getenv env <> "" -> value = getenv env)
  /\ (args !! flag = None -> getenv env = "" -> value = def).

(** A program that reads variables, asks the readers [ha] and [hl], and
    opens only files that do not open. *)
Fixpoint quiet {A : Type} (fs : string -> result mmdb) (aDB gDB : string)
    (ha hl : handle) (p : prog A) : Prop :=
  match p with
  | Ret _ => True
  | Vis e k =>
      match e in eff B return (B -> Prop) -> Prop with
      | GetAsnDB => fun rest => rest aDB
      | GetGeoDB => fun rest => rest gDB
      | GetLang => fun rest => forall l, rest l
      | GetAsnReader => fun rest => rest ha
      | GetLocReader => fun rest => rest hl
      | Open file =>
          fun rest =>
            match fs file with
            | Err err => rest (Err err)
            | Ok _ => False
            end
      | ASN h _ => fun rest => h = ha /\ forall r, rest r
      | CityOf h _ => fun rest => h = hl /\ forall r, rest r
      | _ => fun _ => False
      end (fun b => quiet fs aDB gDB ha hl (k b))
  end.

Definition quiet_in {A : Type} (st : State) (p : prog A) : Prop :=
  quiet (files st) (asnDB st) (geoDB st) (asnReader st) (locReader st) p.

(** A request that is a lookup, or a reload whose file does not open. *)
Definition opens (r : result mmdb) : bool :=
  match r with
  | Ok _ => true
  | Err _ => false
  end.

Definition replaces_no_reader (st : State) (r : Request) : bool :=
  match r with
  | GET_asn_reload _ => negb (opens (files st (asnDB st)))
  | GET_geo_reload _ => negb (opens (files st (geoDB st)))
  | _ => true
  end.

(** What each handler in flight would answer if it ran alone from here. *)
Definition answers (st : State) (ts : list (prog Response)) : list Response :=
  (fun p => fst (run p st)) <$> ts.

(** ** Notions used for reloads in flight with other requests *)































(** * Properties *)

(** ** Running programs *)

Lemma run_bind {A B : Type} (p : prog A) (f : A -> prog B) (st : State) :
  run (bind p f) st = run (f (fst (run p st))) (snd (run p st)).
Proof.
  revert st. induction p as [a | T e k IH]; intros st; simpl.
  - reflexivity.
  - destruct (denote e st) as [b st']. apply IH.
Qed.

Lemma run_act {B : Type} (e : eff B) (st : State) :
  run (act e) st = denote e st.
Proof. unfold act. simpl. destruct (denote e st); reflexivity. Qed.

Lemma same_config_refl (st : State) : same_config st st.
Proof. repeat split. Qed.

Lemma same_config_trans (st1 st2 st3 : State) :
  same_config st1 st2 -> same_config st2 st3 -> same_config st1 st3.
Proof.
  unfold same_config. intros (-> & -> & -> & ->) (-> & -> & -> & ->).
  repeat split.
Qed.

Lemma denote_same_config {B : Type} (e : eff B) (st : State) :
  same_config st (snd (denote e st)).
Proof.
  unfold same_config.
  destruct e as [| | | | h | | h | file | h | h ip | h ip]; simpl;
    try (repeat split; reflexivity).
  destruct (geoip2_Open (files st) (heap st) file); simpl. repeat split.
Qed.

Lemma run_same_config {A : Type} (p : prog A) (st : State) :
  same_config st (snd (run p st)).
Proof.
  revert st. induction p as [a | T e k IH]; intros st; simpl.
  - apply same_config_refl.
  - pose proof (denote_same_config e st) as Hd.
    destruct (denote e st) as [b st']. simpl in Hd.
    eapply same_config_trans; [exact Hd | apply IH].
Qed.

Lemma denote_same_but_log {B : Type} (e : eff B) (st1 st2 : State) :
  same_but_log st1 st2 ->
  fst (denote e st2) = fst (denote e st1)
  /\ same_but_log (snd (denote e st1)) (snd (denote e st2)).
Proof.
  unfold same_but_log, same_config.
  intros (Hf & Hh & (Ha & Hb & Hc & Hd) & Hr & Hl).
  destruct e as [| | | | h | | h | file | h | h ip | h ip]; simpl;
    rewrite ?Hf, ?Hh, ?Ha, ?Hb, ?Hc, ?Hd, ?Hr, ?Hl;
    try (split; [reflexivity | repeat split; assumption]).
  destruct (geoip2_Open (files st1) (heap st1) file); simpl.
  split; [reflexivity | repeat split; assumption].
Qed.

Lemma run_same_but_log {A : Type} (p : prog A) (st1 st2 : State) :
  same_but_log st1 st2 ->
  fst (run p st2) = fst (run p st1)
  /\ same_but_log (snd (run p st1)) (snd (run p st2)).
Proof.
  revert st1 st2. induction p as [a | T e k IH]; intros st1 st2 Hs; simpl.
  - split; [reflexivity | exact Hs].
  - destruct (denote_same_but_log e st1 st2 Hs) as [Hv Hs'].
    destruct (denote e st1) as [b1 st1'], (denote e st2) as [b2 st2'].
    simpl in Hv, Hs'. subst b2. apply IH, Hs'.
Qed.

Section ServerProperties.

Variable ParseIP : string -> option IP.
Variable ginModeValid : string -> bool.

Local Abbreviation getAS := (getAS ParseIP).
Local Abbreviation getLocation := (getLocation ParseIP).
Local Abbreviation getIPInfo := (getIPInfo ParseIP).
Local Abbreviation handler := (handler ParseIP).
Local Abbreviation perform := (perform ParseIP).
Local Abbreviation perform_all := (perform_all ParseIP).
Local Abbreviation spawn := (spawn ParseIP).
Local Abbreviation init := (init ginModeValid).

(** *** The lookups *)

Lemma run_getAS (ip : string) (st : State) :
  run (getAS ip) st =
  match ParseIP ip with
  | None => ((as_zero, Some (Errorf "invalid ip address %q" ip)), st)
  | Some ipaddr =>
      (match geoip2_ASN (heap st) (asnReader st) ipaddr with
       | Err err => (as_zero, Some err)
       | Ok data =>
           ({| Number := geoip2.AutonomousSystemNumber data;
               Name := geoip2.AutonomousSystemOrganization data |}, None)
       end,
       with_heap (heap st) (EvASN (asnReader st) ipaddr) st)
  end.
Proof.
  unfold getAS. destruct (ParseIP ip) as [ipaddr |]; simpl; [| reflexivity].
  destruct (geoip2_ASN (heap st) (asnReader st) ipaddr); reflexivity.
Qed.

Lemma run_getLocation (ip : string) (st : State) :
  run (getLocation ip) st =
  match ParseIP ip with
  | None => ((location_zero, Some (Errorf "invalid ip address %q" ip)), st)
  | Some ipaddr =>
      (match geoip2_City (heap st) (locReader st) ipaddr with
       | Err err => (location_zero, Some err)
       | Ok geo =>
           ({| Continent := index (geoip2.Continent_Names geo) (lang st);
               ContinentCode := geoip2.Continent_Code geo;
               Country := index (geoip2.Country_Names geo) (lang st);
               CountryCode := geoip2.Country_IsoCode geo;
               City := index (geoip2.City_Names geo) (lang st) |}, None)
       end,
       with_heap (heap st) (EvCity (locReader st) ipaddr) st)
  end.
Proof.
  unfold getLocation. destruct (ParseIP ip) as [ipaddr |]; simpl;
    [| reflexivity].
  destruct (geoip2_City (heap st) (locReader st) ipaddr); reflexivity.
Qed.

Lemma run_getIPInfo (ip : string) (st : State) :
  run (getIPInfo ip) st =
  (({| AS := fst (fst (run (getAS ip) st));
       Location :=
         fst (fst (run (getLocation ip) (snd (run (getAS ip) st)))) |},
    snd (fst (run (getLocation ip) (snd (run (getAS ip) st))))),
   snd (run (getLocation ip) (snd (run (getAS ip) st)))).
Proof.
  unfold getIPInfo. rewrite run_bind, run_bind. reflexivity.
Qed.

(** C1. [getIPInfo] drops the error of [getAS] and returns the error of
    [getLocation], on every input and every state: its error is the one
    [getLocation] returns (none when the location lookup succeeds, that
    error when it fails, whatever the AS lookup did, so also when both
    fail), its location is the one [getLocation] returns, and its [as] is
    the zero value whenever the AS lookup fails.  In particular, when the
    AS lookup fails and the location lookup succeeds the result is the
    zero [as], the location found and no error; and when the location
    lookup fails the call returns that error. *)
Theorem getIPInfo_partial_failure (ip : string) (st : State) :
  snd (fst (run (getIPInfo ip) st)) = snd (fst (run (getLocation ip) st))
  /\ Location (fst (fst (run (getIPInfo ip) st)))
     = fst (fst (run (getLocation ip) st))
  /\ AS (fst (fst (run (getIPInfo ip) st))) = fst (fst (run (getAS ip) st))
  /\ (forall e, snd (fst (run (getAS ip) st)) = Some e ->
                AS (fst (fst (run (getIPInfo ip) st))) = as_zero)
  /\ (forall a e loc st1 st2,
        run (getAS ip) st = ((a, Some e), st1) ->
        run (getLocation ip) st1 = ((loc, None), st2) ->
        run (getIPInfo ip) st =
        (({| AS := as_zero; Location := loc |}, None), st2))
  /\ (forall a oe e loc st1 st2,
        run (getAS ip) st = ((a, oe), st1) ->
        run (getLocation ip) st1 = ((loc, Some e), st2) ->
        snd (fst (run (getIPInfo ip) st)) = Some e).
Proof.
  assert (Hzero : forall a e st1,
             run (getAS ip) st = ((a, Some e), st1) -> a = as_zero).
  { intros a e st1 Has. rewrite run_getAS in Has.
    destruct (ParseIP ip) as [ipaddr |]; [| congruence].
    destruct (geoip2_ASN (heap st) (asnReader st) ipaddr); congruence. }
  assert (Hsame : fst (run (getLocation ip) (snd (run (getAS ip) st)))
                  = fst (run (getLocation ip) st)).
  { apply run_same_but_log. rewrite run_getAS.
    destruct (ParseIP ip); repeat split. }
  rewrite run_getIPInfo. simpl. rewrite Hsame.
  split; [reflexivity |]. split; [reflexivity |]. split; [reflexivity |].
  split; [| split].
  - intros e He.
    destruct (run (getAS ip) st) as [[a oe] st1] eqn:Has. simpl in *.
    subst oe. apply (Hzero a e st1 eq_refl).
  - intros a e loc st1 st2 Has Hloc.
    rewrite <- Hsame, Has. simpl. rewrite Hloc. simpl.
    rewrite (Hzero a e st1 Has). reflexivity.
  - intros a oe e loc st1 st2 Has Hloc.
    rewrite <- Hsame, Has. simpl. rewrite Hloc. reflexivity.
Qed.

(** C4. On a string that [net.ParseIP] rejects, [getAS] and
    [getLocation] are the program that returns at once, with the zero
    record and the error [invalid ip address %q] built on that string:
    they contain no action at all, so no reader is asked, and running
    them leaves the state (its log of reader calls included) as it was. *)
Theorem invalid_ip_rejected (ip : string) (st : State) :
  ParseIP ip = None ->
  getAS ip = Ret (as_zero, Some (Errorf "invalid ip address %q" ip))
  /\ getLocation ip =
     Ret (location_zero, Some (Errorf "invalid ip address %q" ip))
  /\ run (getAS ip) st =
     ((as_zero, Some (Errorf "invalid ip address %q" ip)), st)
  /\ run (getLocation ip) st =
     ((location_zero, Some (Errorf "invalid ip address %q" ip)), st).
Proof.
  intros Hnil. unfold getAS, getLocation. rewrite Hnil. simpl.
  repeat split.
Qed.

(** C8. The record that [getAS] or [getLocation] returns next to an
    error is the zero value of its type; so a record that is not the
    zero value comes with a [nil] error. *)
Theorem error_with_zero_record (ip : string) (st : State) :
  (forall a e st', run (getAS ip) st = ((a, Some e), st') -> a = as_zero)
  /\ (forall l e st',
         run (getLocation ip) st = ((l, Some e), st') -> l = location_zero)
  /\ (forall a oe st',
         run (getAS ip) st = ((a, oe), st') -> a <> as_zero -> oe = None)
  /\ (forall l oe st',
         run (getLocation ip) st = ((l, oe), st') ->
         l <> location_zero -> oe = None).
Proof.
  assert (Has : forall a e st',
             run (getAS ip) st = ((a, Some e), st') -> a = as_zero).
  { intros a e st' Hrun. rewrite run_getAS in Hrun.
    destruct (ParseIP ip) as [ipaddr |]; [| congruence].
    destruct (geoip2_ASN (heap st) (asnReader st) ipaddr); congruence. }
  assert (Hloc : forall l e st',
             run (getLocation ip) st = ((l, Some e), st') ->
             l = location_zero).
  { intros l e st' Hrun. rewrite run_getLocation in Hrun.
    destruct (ParseIP ip) as [ipaddr |]; [| congruence].
    destruct (geoip2_City (heap st) (locReader st) ipaddr); congruence. }
  repeat split; [exact Has | exact Hloc | |].
  - intros a [e |] st' Hrun Hnz; [| reflexivity].
    destruct Hnz. eapply Has, Hrun.
  - intros l [e |] st' Hrun Hnz; [| reflexivity].
    destruct Hnz. eapply Hloc, Hrun.
Qed.

(** C6. When [getLocation] succeeds, the input parsed, the current
    location reader returned a record for the address, and each of
    [Continent], [Country] and [City] is the entry of that record's
    names under the language of the process: the name stored under that
    language when there is one, and the empty string when there is none,
    whatever names the record has under other languages. *)
Theorem location_names_in_language (ip : string) (st st' : State)
    (loc : location) :
  run (getLocation ip) st = ((loc, None), st') ->
  exists ipaddr geo,
    ParseIP ip = Some ipaddr
    /\ geoip2_City (heap st) (locReader st) ipaddr = Ok geo
    /\ (forall name, geoip2.Continent_Names geo !! lang st = Some name ->
                     Continent loc = name)
    /\ (geoip2.Continent_Names geo !! lang st = None -> Continent loc = "")
    /\ (forall name, geoip2.Country_Names geo !! lang st = Some name ->
                     Country loc = name)
    /\ (geoip2.Country_Names geo !! lang st = None -> Country loc = "")
    /\ (forall name, geoip2.City_Names geo !! lang st = Some name ->
                     City loc = name)
    /\ (geoip2.City_Names geo !! lang st = None -> City loc = "").
Proof.
  intros Hrun. rewrite run_getLocation in Hrun.
  destruct (ParseIP ip) as [ipaddr |]; [| congruence].
  destruct (geoip2_City (heap st) (locReader st) ipaddr) as [geo | err] eqn:Hq;
    [| congruence].
  exists ipaddr, geo. inversion Hrun; subst; clear Hrun. simpl.
  unfold index.
  repeat match goal with |- _ /\ _ => split end;
    try reflexivity; try exact Hq;
    first [intros name Hn | intros Hn]; rewrite Hn; reflexivity.
Qed.

(** C9. [ContinentCode] and [CountryCode] of the result of
    [getLocation] do not depend on the language: on the same state and
    address, whatever two languages the process was started with, the two
    codes and the error are the same. *)
Theorem codes_independent_of_language (ip : string) (st : State)
    (l1 l2 : string) :
  let r1 := fst (run (getLocation ip) (with_lang l1 st)) in
  let r2 := fst (run (getLocation ip) (with_lang l2 st)) in
  ContinentCode (fst r1) = ContinentCode (fst r2)
  /\ CountryCode (fst r1) = CountryCode (fst r2)
  /\ snd r1 = snd r2.
Proof.
  simpl. rewrite !run_getLocation.
  destruct (ParseIP ip) as [ipaddr |]; simpl; [| repeat split].
  destruct (geoip2_City (heap st) (locReader st) ipaddr); repeat split.
Qed.

(** *** Reloading *)

Lemma run_asn_reload (c : Context) (st : State) :
  run (asn_reload c) st =
  match files st (asnDB st) with
  | Err err =>
      ({| status := StatusInternalServerError;
          payload :=
            H (<["error" := JErr err]>
                 (<["message" :=
                      JStr "failed to load database; using previous one..."]>
                    ∅)) |},
       with_heap (heap st) (EvOpen (asnDB st) None) st)
  | Ok d =>
      ({| status := StatusOK;
          payload :=
            H (<["message" := JStr "asn database reloaded successfully"]> ∅) |},
       with_asnReader (length (heap st))
         (with_heap
            (geoip2_Close (heap st ++ [{| db := d; closed := false |}])
               (asnReader st))
            (EvClose (asnReader st))
            (with_heap (heap st ++ [{| db := d; closed := false |}])
               (EvOpen (asnDB st) (Some (length (heap st)))) st)))
  end.
Proof.
  unfold asn_reload, loadDB, unloadDB. simpl. unfold geoip2_Open.
  destruct (files st (asnDB st)); reflexivity.
Qed.

Lemma run_geo_reload (c : Context) (st : State) :
  run (geo_reload c) st =
  match files st (geoDB st) with
  | Err err =>
      ({| status := StatusInternalServerError;
          payload :=
            H (<["error" := JErr err]>
                 (<["message" :=
                      JStr "failed to load database; using previous one..."]>
                    ∅)) |},
       with_heap (heap st) (EvOpen (geoDB st) None) st)
  | Ok d =>
      ({| status := StatusOK;
          payload :=
            H (<["message" := JStr "geoip database reloaded successfully"]> ∅) |},
       with_locReader (length (heap st))
         (with_heap
            (geoip2_Close (heap st ++ [{| db := d; closed := false |}])
               (locReader st))
            (EvClose (locReader st))
            (with_heap (heap st ++ [{| db := d; closed := false |}])
               (EvOpen (geoDB st) (Some (length (heap st)))) st)))
  end.
Proof.
  unfold geo_reload, loadDB, unloadDB. simpl. unfold geoip2_Open.
  destruct (files st (geoDB st)); reflexivity.
Qed.

Lemma new_events_app (st st' : State) (evs : list event) :
  log st' = evs ++ log st -> new_events st st' = rev evs.
Proof.
  intros Hlog. unfold new_events. rewrite Hlog, length_app.
  replace (length evs + length (log st) - length (log st)) with (length evs)
    by lia.
  rewrite take_app_length. reflexivity.
Qed.

(** The events of a reload. *)
Lemma asn_reload_events (c : Context) (st : State) :
  new_events st (snd (run (asn_reload c) st)) =
  match files st (asnDB st) with
  | Ok _ =>
      [EvOpen (asnDB st) (Some (length (heap st)));
       EvClose (asnReader st);
       EvSetAsnReader (length (heap st))]
  | Err _ => [EvOpen (asnDB st) None]
  end.
Proof.
  rewrite run_asn_reload. destruct (files st (asnDB st)); simpl.
  - apply (new_events_app st _ [_; _; _]). reflexivity.
  - apply (new_events_app st _ [_]). reflexivity.
Qed.

Lemma geo_reload_events (c : Context) (st : State) :
  new_events st (snd (run (geo_reload c) st)) =
  match files st (geoDB st) with
  | Ok _ =>
      [EvOpen (geoDB st) (Some (length (heap st)));
       EvClose (locReader st);
       EvSetLocReader (length (heap st))]
  | Err _ => [EvOpen (geoDB st) None]
  end.
Proof.
  rewrite run_geo_reload. destruct (files st (geoDB st)); simpl.
  - apply (new_events_app st _ [_; _; _]). reflexivity.
  - apply (new_events_app st _ [_]). reflexivity.
Qed.

Lemma open_close_store_not_open_store_close (evs : list event) :
  open_close_store evs -> ~ open_store_close evs.
Proof.
  intros (f & h & old & [-> | ->]) (f' & h' & old' & [Heq | Heq]);
    discriminate.
Qed.

(** C2, as the code has it.  A reload whose [geoip2.Open] succeeds does
    three things in this order: it opens the file named by the configured
    path, it closes the reader that is current, and only then it assigns
    the new reader to the reader variable; the store does not come before
    the close.  A reload whose open fails does nothing but that open. *)
Theorem reload_closes_then_stores (c : Context) (st : State) :
  (forall d, files st (asnDB st) = Ok d ->
     new_events st (snd (run (asn_reload c) st)) =
     [EvOpen (asnDB st) (Some (length (heap st)));
      EvClose (asnReader st);
      EvSetAsnReader (length (heap st))]
     /\ ~ open_store_close (new_events st (snd (run (asn_reload c) st))))
  /\ (forall d, files st (geoDB st) = Ok d ->
     new_events st (snd (run (geo_reload c) st)) =
     [EvOpen (geoDB st) (Some (length (heap st)));
      EvClose (locReader st);
      EvSetLocReader (length (heap st))]
     /\ ~ open_store_close (new_events st (snd (run (geo_reload c) st))))
  /\ (forall e, files st (asnDB st) = Err e ->
     new_events st (snd (run (asn_reload c) st)) = [EvOpen (asnDB st) None])
  /\ (forall e, files st (geoDB st) = Err e ->
     new_events st (snd (run (geo_reload c) st)) = [EvOpen (geoDB st) None]).
Proof.
  repeat match goal with |- _ /\ _ => split end; intros x Hopen;
    rewrite ?asn_reload_events, ?geo_reload_events, Hopen;
    try reflexivity;
    (split; [reflexivity |]);
    apply open_close_store_not_open_store_close;
    eexists _, _, _; [left | right]; reflexivity.
Qed.

Lemma same_but_log_with_heap (ev : event) (st : State) :
  same_but_log st (with_heap (heap st) ev st).
Proof. repeat split. Qed.

(** C3. When [geoip2.Open] fails in a reload, the handler answers 500
    with the error and a message, the reader variables and the store of
    readers are as before, and every lookup made afterwards returns what
    it would have returned before the reload. *)
Theorem failed_reload_keeps_reader (c : Context) (st : State) (e : error) :
  (files st (asnDB st) = Err e ->
     let r := run (asn_reload c) st in
     status (fst r) = StatusInternalServerError
     /\ payload (fst r) =
        H (<["error" := JErr e]>
             (<["message" :=
                  JStr "failed to load database; using previous one..."]> ∅))
     /\ asnReader (snd r) = asnReader st
     /\ locReader (snd r) = locReader st
     /\ heap (snd r) = heap st
     /\ (forall ip, fst (run (getAS ip) (snd r)) = fst (run (getAS ip) st))
     /\ (forall ip,
           fst (run (getLocation ip) (snd r)) = fst (run (getLocation ip) st))
     /\ (forall ip,
           fst (run (getIPInfo ip) (snd r)) = fst (run (getIPInfo ip) st)))
  /\ (files st (geoDB st) = Err e ->
     let r := run (geo_reload c) st in
     status (fst r) = StatusInternalServerError
     /\ payload (fst r) =
        H (<["error" := JErr e]>
             (<["message" :=
                  JStr "failed to load database; using previous one..."]> ∅))
     /\ asnReader (snd r) = asnReader st
     /\ locReader (snd r) = locReader st
     /\ heap (snd r) = heap st
     /\ (forall ip, fst (run (getAS ip) (snd r)) = fst (run (getAS ip) st))
     /\ (forall ip,
           fst (run (getLocation ip) (snd r)) = fst (run (getLocation ip) st))
     /\ (forall ip,
           fst (run (getIPInfo ip) (snd r)) = fst (run (getIPInfo ip) st))).
Proof.
  split; intros Hopen; cbv zeta;
    rewrite ?run_asn_reload, ?run_geo_reload, Hopen; simpl;
    repeat match goal with |- _ /\ _ => split end; try reflexivity;
    intros ip; apply run_same_but_log, same_but_log_with_heap.
Qed.

(** *** The state between two requests *)

Lemma handler_state (r : Request) (st : State) :
  snd (run (handler r) st) =
  match r with
  | GET_asn_reload c => snd (run (asn_reload c) st)
  | GET_asn_ip c => snd (run (getAS (Param c "ip")) st)
  | GET_geo_reload c => snd (run (geo_reload c) st)
  | GET_geo_ip c => snd (run (getLocation (Param c "ip")) st)
  | GET_ipinfo_ip c =>
      snd (run (getLocation (Param c "ip"))
             (snd (run (getAS (Param c "ip")) st)))
  end.
Proof.
  destruct r as [c | c | c | c | c]; simpl; try reflexivity.
  - unfold asn_ip. rewrite run_bind.
    destruct (snd (fst (run (getAS (Param c "ip")) st))); reflexivity.
  - unfold geo_ip. rewrite run_bind.
    destruct (snd (fst (run (getLocation (Param c "ip")) st))); reflexivity.
  - unfold ipinfo_ip. rewrite run_bind, run_getIPInfo. simpl.
    destruct (snd (fst (run (getLocation (Param c "ip"))
                          (snd (run (getAS (Param c "ip")) st)))));
      reflexivity.
Qed.

Lemma open_reader_not_closed_in_log (st : State) (h : handle) :
  serving st -> open_reader (heap st) h ->
  existsb (closes h) (log st) = false.
Proof.
  intros Hs (r & Hr & Hopen).
  destruct (existsb (closes h) (log st)) eqn:Hex; [| reflexivity].
  destruct (log_closed st Hs h Hex) as (r' & Hr' & Hclosed). congruence.
Qed.

Lemma serving_query (st : State) (ev : event) :
  serving st -> uses_closed ev (log st) = false -> closes_none ev ->
  serving (with_heap (heap st) ev st).
Proof.
  intros Hs Huse Hnone. destruct Hs as [Ha Hl Hd Hsafe Hclosed].
  constructor; simpl; try assumption.
  - rewrite Huse, Hsafe. reflexivity.
  - intros h. rewrite (Hnone h). simpl. apply Hclosed.
Qed.

Lemma serving_asn_query (st : State) (ip : IP) :
  serving st -> serving (with_heap (heap st) (EvASN (asnReader st) ip) st).
Proof.
  intros Hs. apply serving_query; [exact Hs | | intros h; reflexivity].
  simpl. apply open_reader_not_closed_in_log; [exact Hs | apply Hs].
Qed.

Lemma serving_city_query (st : State) (ip : IP) :
  serving st -> serving (with_heap (heap st) (EvCity (locReader st) ip) st).
Proof.
  intros Hs. apply serving_query; [exact Hs | | intros h; reflexivity].
  simpl. apply open_reader_not_closed_in_log; [exact Hs | apply Hs].
Qed.

Lemma serving_getAS (ip : string) (st : State) :
  serving st -> serving (snd (run (getAS ip) st)).
Proof.
  intros Hs. rewrite run_getAS.
  destruct (ParseIP ip); simpl; [apply serving_asn_query |]; exact Hs.
Qed.

Lemma serving_getLocation (ip : string) (st : State) :
  serving st -> serving (snd (run (getLocation ip) st)).
Proof.
  intros Hs. rewrite run_getLocation.
  destruct (ParseIP ip); simpl; [apply serving_city_query |]; exact Hs.
Qed.

Lemma lookup_closed_other (hp : list Reader) (new r : Reader) (old h : handle) :
  h <> old -> hp !! h = Some r ->
  geoip2_Close (hp ++ [new]) old !! h = Some r.
Proof.
  intros Hne Hr. unfold geoip2_Close.
  rewrite list_lookup_alter_ne by congruence.
  apply lookup_app_l_Some, Hr.
Qed.

Lemma lookup_closed_old (hp : list Reader) (new r : Reader) (old : handle) :
  hp !! old = Some r ->
  geoip2_Close (hp ++ [new]) old !! old = Some (close_reader r).
Proof.
  intros Hr. unfold geoip2_Close.
  rewrite list_lookup_alter_eq, (lookup_app_l_Some _ _ _ _ Hr). reflexivity.
Qed.

Lemma lookup_closed_new (hp : list Reader) (new r : Reader) (old : handle) :
  hp !! old = Some r ->
  geoip2_Close (hp ++ [new]) old !! length hp = Some new.
Proof.
  intros Hr. apply lookup_lt_Some in Hr. unfold geoip2_Close.
  rewrite list_lookup_alter_ne by lia.
  apply list_lookup_middle. reflexivity.
Qed.

Lemma closed_after_reload (st : State) (new : Reader) (old h : handle) :
  serving st -> open_reader (heap st) old ->
  Nat.eqb h old || existsb (closes h) (log st) = true ->
  exists r, geoip2_Close (heap st ++ [new]) old !! h = Some r
            /\ closed r = true.
Proof.
  intros Hs (ro & Hro & _) Hex.
  destruct (Nat.eqb_spec h old) as [-> | Hne].
  - exists (close_reader ro). split; [| reflexivity].
    apply lookup_closed_old, Hro.
  - simpl in Hex. destruct (log_closed st Hs h Hex) as (r & Hr & Hc).
    exists r. split; [| exact Hc]. apply lookup_closed_other; assumption.
Qed.

Lemma serving_asn_reloaded (st : State) (d : mmdb) :
  serving st ->
  serving
    (with_asnReader (length (heap st))
       (with_heap
          (geoip2_Close (heap st ++ [{| db := d; closed := false |}])
             (asnReader st))
          (EvClose (asnReader st))
          (with_heap (heap st ++ [{| db := d; closed := false |}])
             (EvOpen (asnDB st) (Some (length (heap st)))) st))).
Proof.
  intros Hs.
  destruct (asn_open st Hs) as (ra & Hra & Hca).
  destruct (loc_open st Hs) as (rl & Hrl & Hcl).
  constructor; simpl.
  - eexists. split; [eapply lookup_closed_new, Hra | reflexivity].
  - exists rl. split; [| exact Hcl].
    apply lookup_closed_other; [| exact Hrl].
    intros Heq. apply (readers_differ st Hs). congruence.
  - apply lookup_lt_Some in Hrl. lia.
  - apply (log_safe st Hs).
  - intros h Hex. apply closed_after_reload; [exact Hs | apply Hs | exact Hex].
Qed.

Lemma serving_geo_reloaded (st : State) (d : mmdb) :
  serving st ->
  serving
    (with_locReader (length (heap st))
       (with_heap
          (geoip2_Close (heap st ++ [{| db := d; closed := false |}])
             (locReader st))
          (EvClose (locReader st))
          (with_heap (heap st ++ [{| db := d; closed := false |}])
             (EvOpen (geoDB st) (Some (length (heap st)))) st))).
Proof.
  intros Hs.
  destruct (asn_open st Hs) as (ra & Hra & Hca).
  destruct (loc_open st Hs) as (rl & Hrl & Hcl).
  constructor; simpl.
  - exists ra. split; [| exact Hca].
    apply lookup_closed_other; [| exact Hra]. apply (readers_differ st Hs).
  - eexists. split; [eapply lookup_closed_new, Hrl | reflexivity].
  - apply lookup_lt_Some in Hra. lia.
  - apply (log_safe st Hs).
  - intros h Hex. apply closed_after_reload; [exact Hs | apply Hs | exact Hex].
Qed.

Lemma serving_open_failed (st : State) (file : string) :
  serving st -> serving (with_heap (heap st) (EvOpen file None) st).
Proof.
  intros Hs. apply serving_query; [exact Hs | reflexivity |].
  intros h; reflexivity.
Qed.

(** Lookups in flight together. *)

Lemma lookup_only_bind {A B : Type} (ha hl : handle) (p : prog A)
    (f : A -> prog B) :
  lookup_only ha hl p -> (forall a, lookup_only ha hl (f a)) ->
  lookup_only ha hl (bind p f).
Proof.
  intros Hp Hf. induction p as [a | T e k IH]; simpl.
  - apply Hf.
  - destruct e as [| | | | h | | h | file | h | h ip | h ip]; simpl in *;
      try contradiction.
    + intros l. apply IH, Hp.
    + apply IH, Hp.
    + apply IH, Hp.
    + destruct Hp as [Hh Hp]. split; [exact Hh |]. intros r. apply IH, Hp.
    + destruct Hp as [Hh Hp]. split; [exact Hh |]. intros r. apply IH, Hp.
Qed.

Lemma lookup_only_getAS (ha hl : handle) (ip : string) :
  lookup_only ha hl (getAS ip).
Proof.
  unfold getAS. destruct (ParseIP ip) as [ipaddr |]; simpl; [| exact I].
  split; [reflexivity |]. intros [data | err]; exact I.
Qed.

Lemma lookup_only_getLocation (ha hl : handle) (ip : string) :
  lookup_only ha hl (getLocation ip).
Proof.
  unfold getLocation. destruct (ParseIP ip) as [ipaddr |]; simpl; [| exact I].
  split; [reflexivity |]. intros [geo | err]; simpl; [| exact I].
  intros l1 l2 l3. exact I.
Qed.

Lemma lookup_only_handler (ha hl : handle) (r : Request) :
  is_reload r = false -> lookup_only ha hl (handler r).
Proof.
  destruct r as [c | c | c | c | c]; simpl; try discriminate; intros _.
  - apply lookup_only_bind; [apply lookup_only_getAS |].
    intros a. destruct (snd a); exact I.
  - apply lookup_only_bind; [apply lookup_only_getLocation |].
    intros a. destruct (snd a); exact I.
  - apply lookup_only_bind.
    + apply lookup_only_bind; [apply lookup_only_getAS |].
      intros a. apply lookup_only_bind; [apply lookup_only_getLocation |].
      intros l. exact I.
    + intros a. destruct (snd a); exact I.
Qed.

Lemma lookup_only_spawn (ha hl : handle) (rs : list Request) :
  forallb (fun r => negb (is_reload r)) rs = true ->
  Forall (lookup_only ha hl) (spawn rs).
Proof.
  induction rs as [| r rs IH]; simpl; intros Hrs.
  - constructor.
  - apply andb_true_iff in Hrs as [Hr Hrs]. constructor.
    + apply lookup_only_handler. destruct (is_reload r); [discriminate |].
      reflexivity.
    + apply IH, Hrs.
Qed.

Lemma sched_step_lookups (st : State) (ts : pool) (i : nat) :
  serving st ->
  Forall (lookup_only (asnReader st) (locReader st)) ts ->
  serving (fst (sched_step (st, ts) i))
  /\ asnReader (fst (sched_step (st, ts) i)) = asnReader st
  /\ locReader (fst (sched_step (st, ts) i)) = locReader st
  /\ Forall (lookup_only (asnReader st) (locReader st))
       (snd (sched_step (st, ts) i)).
Proof.
  intros Hs Hts. unfold sched_step. simpl.
  destruct (ts !! i) as [[a | T e k] |] eqn:Hi; simpl; try tauto.
  pose proof (Forall_lookup_1 _ _ _ _ Hts Hi) as Hp.
  destruct e as [| | | | h | | h | file | h | h ip | h ip]; simpl in *;
    try contradiction.
  - split; [exact Hs |]. split; [reflexivity |]. split; [reflexivity |].
    apply Forall_insert; [exact Hts | apply Hp].
  - split; [exact Hs |]. split; [reflexivity |]. split; [reflexivity |].
    apply Forall_insert; [exact Hts | apply Hp].
  - split; [exact Hs |]. split; [reflexivity |]. split; [reflexivity |].
    apply Forall_insert; [exact Hts | apply Hp].
  - destruct Hp as [-> Hp]. split; [apply serving_asn_query, Hs |].
    split; [reflexivity |]. split; [reflexivity |].
    apply Forall_insert; [exact Hts | apply Hp].
  - destruct Hp as [-> Hp]. split; [apply serving_city_query, Hs |].
    split; [reflexivity |]. split; [reflexivity |].
    apply Forall_insert; [exact Hts | apply Hp].
Qed.

Lemma serving_sched_lookups (order : list nat) (st : State) (ts : pool) :
  serving st ->
  Forall (lookup_only (asnReader st) (locReader st)) ts ->
  serving (fst (sched order (st, ts))).
Proof.
  revert st ts. induction order as [| i order IH]; intros st ts Hs Hts; simpl.
  - exact Hs.
  - destruct (sched_step_lookups st ts i Hs Hts) as (Hs' & Ha & Hl & Hts').
    destruct (sched_step (st, ts) i) as [st' ts']. simpl in *.
    apply IH; [exact Hs' |]. rewrite Ha, Hl. exact Hts'.
Qed.

Lemma serving_perform (st : State) (a : action) :
  reload_alone a = true -> serving st -> serving (perform st a).
Proof.
  intros Halone Hs. destruct a as [r | rs order | file d]; simpl.
  - rewrite handler_state. destruct r as [c | c | c | c | c].
    + rewrite run_asn_reload. destruct (files st (asnDB st)); simpl.
      * apply serving_asn_reloaded, Hs.
      * apply serving_open_failed, Hs.
    + apply serving_getAS, Hs.
    + rewrite run_geo_reload. destruct (files st (geoDB st)); simpl.
      * apply serving_geo_reloaded, Hs.
      * apply serving_open_failed, Hs.
    + apply serving_getLocation, Hs.
    + apply serving_getLocation, serving_getAS, Hs.
  - apply serving_sched_lookups; [exact Hs |].
    apply lookup_only_spawn, Halone.
  - destruct Hs as [Ha Hl Hd Hsafe Hclosed]. constructor; assumption.
Qed.

Lemma serving_perform_all (acts : list action) (st : State) :
  forallb reload_alone acts = true -> serving st ->
  serving (perform_all acts st).
Proof.
  revert st. induction acts as [| a acts IH]; intros st Halone Hs; simpl.
  - exact Hs.
  - simpl in Halone. apply andb_true_iff in Halone as [Ha Hacts].
    apply IH; [exact Hacts |]. apply serving_perform; assumption.
Qed.

(** *** Startup *)

Lemma in_languages (l : string) :
  existsb (String.eqb l) languages = true <-> l ∈ languages.
Proof.
  rewrite existsb_exists, list_elem_of_In. split.
  - intros (x & Hin & Heq). apply String.eqb_eq in Heq. subst x. exact Hin.
  - intros Hin. exists l. split; [exact Hin | apply String.eqb_refl].
Qed.

Lemma switch_lang_listed (l : string) : l ∈ languages -> switch_lang l = l.
Proof.
  intros Hin. unfold switch_lang. apply in_languages in Hin.
  rewrite Hin. reflexivity.
Qed.

Lemma switch_lang_other (l : string) : l ∉ languages -> switch_lang l = "en".
Proof.
  intros Hout. unfold switch_lang.
  destruct (existsb (String.eqb l) languages) eqn:Hex; [| reflexivity].
  destruct Hout. apply in_languages, Hex.
Qed.

Lemma switch_lang_in (l : string) : switch_lang l ∈ languages.
Proof.
  unfold switch_lang.
  destruct (existsb (String.eqb l) languages) eqn:Hex.
  - apply in_languages, Hex.
  - apply in_languages. reflexivity.
Qed.

(** What [init] leaves when it does not panic. *)
Lemma init_Serving (getenv : string -> string) (args : gmap string string)
    (fs : string -> result mmdb) (st0 : State) :
  init getenv args fs = Serving st0 ->
  exists d1 d2,
    st0 =
    {| files := fs;
       heap := [ {| db := d1; closed := false |};
                 {| db := d2; closed := false |} ];
       addr := flag_String args "a" (Getenv_or getenv "IPINFO_ADDR" defaultAddr);
       asnDB :=
         flag_String args "db_asn"
           (Getenv_or getenv "IPINFO_DB_ASN" defaultAsnDB);
       geoDB :=
         flag_String args "db_geoip"
           (Getenv_or getenv "IPINFO_DB_GEOIP" defaultGeoDB);
       lang :=
         switch_lang
           (flag_String args "l" (Getenv_or getenv "IPINFO_LANG" defaultLang));
       asnReader := 0;
       locReader := 1;
       log :=
         [ EvSetLocReader 1;
           EvOpen (flag_String args "db_geoip"
                     (Getenv_or getenv "IPINFO_DB_GEOIP" defaultGeoDB))
             (Some 1);
           EvSetAsnReader 0;
           EvOpen (flag_String args "db_asn"
                     (Getenv_or getenv "IPINFO_DB_ASN" defaultAsnDB))
             (Some 0) ] |}.
Proof.
  unfold init.
  generalize (flag_String args "a" (Getenv_or getenv "IPINFO_ADDR" defaultAddr)).
  generalize (flag_String args "m" (Getenv_or getenv "IPINFO_MODE" defaultMode)).
  generalize (flag_String args "db_asn"
                (Getenv_or getenv "IPINFO_DB_ASN" defaultAsnDB)).
  generalize (flag_String args "db_geoip"
                (Getenv_or getenv "IPINFO_DB_GEOIP" defaultGeoDB)).
  generalize (switch_lang
                (flag_String args "l"
                   (Getenv_or getenv "IPINFO_LANG" defaultLang))).
  intros l gDB aDB mode a.
  destruct (ginModeValid mode); [| discriminate].
  unfold loadDB. rewrite run_act. cbn [denote files heap asnDB].
  unfold geoip2_Open at 1. destruct (fs aDB) as [d1 | e1]; [| discriminate].
  rewrite run_act. cbn.
  unfold geoip2_Open. destruct (fs gDB) as [d2 | e2]; [| discriminate].
  intros Hst. inversion Hst. exists d1, d2. reflexivity.
Qed.

Lemma init_serving (getenv : string -> string) (args : gmap string string)
    (fs : string -> result mmdb) (st0 : State) :
  init getenv args fs = Serving st0 -> serving st0.
Proof.
  intros Hinit. apply init_Serving in Hinit as (d1 & d2 & ->).
  constructor; simpl.
  - eexists. split; reflexivity.
  - eexists. split; reflexivity.
  - discriminate.
  - reflexivity.
  - discriminate.
Qed.

(** *** Configuration *)

Lemma sched_step_same_config (cfg : State * pool) (i : nat) :
  same_config (fst cfg) (fst (sched_step cfg i)).
Proof.
  unfold sched_step.
  destruct (snd cfg !! i) as [[a | T e k] |]; try apply same_config_refl.
  pose proof (denote_same_config e (fst cfg)) as Hd.
  destruct (denote e (fst cfg)) as [b st']. exact Hd.
Qed.

Lemma sched_same_config (order : list nat) (cfg : State * pool) :
  same_config (fst cfg) (fst (sched order cfg)).
Proof.
  revert cfg. induction order as [| i order IH]; intros cfg; simpl.
  - apply same_config_refl.
  - eapply same_config_trans; [apply sched_step_same_config | apply IH].
Qed.

Lemma perform_same_config (st : State) (a : action) :
  same_config st (perform st a).
Proof.
  destruct a as [r | rs order | file d]; simpl.
  - apply run_same_config.
  - apply (sched_same_config order (st, spawn rs)).
  - repeat split.
Qed.

Lemma perform_all_same_config (acts : list action) (st : State) :
  same_config st (perform_all acts st).
Proof.
  revert st. induction acts as [| a acts IH]; intros st; simpl.
  - apply same_config_refl.
  - eapply same_config_trans; [apply perform_same_config | apply IH].
Qed.

(** A handler scheduled alone does what [run] does. *)
Lemma sched_alone (p : prog Response) (st : State) :
  sched (replicate (actions p st) 0) (st, [p]) =
  (snd (run p st), [Ret (fst (run p st))]).
Proof.
  revert st. induction p as [a | T e k IH]; intros st; simpl.
  - reflexivity.
  - destruct (denote e st) as [b st'] eqn:Hd. simpl.
    unfold sched_step. simpl. rewrite Hd. apply IH.
Qed.

(** C7. The language that [init] leaves in [lang] is the requested one
    (the flag [-l], else [IPINFO_LANG], else [en]) when it is one of
    [en], [de], [es], [fr], [ja], [pt-BR], [ru], [zh-CN], and [en] for any
    other request; and no request changes it afterwards, whether the
    requests are served one at a time or interleaved. *)
Theorem language_fixed_at_startup (getenv : string -> string)
    (args : gmap string string) (fs : string -> result mmdb) (st0 : State) :
  init getenv args fs = Serving st0 ->
  let requested :=
    flag_String args "l" (Getenv_or getenv "IPINFO_LANG" defaultLang) in
  (requested ∈ languages -> lang st0 = requested)
  /\ (requested ∉ languages -> lang st0 = "en")
  /\ lang st0 ∈ languages
  /\ (forall acts, lang (perform_all acts st0) = lang st0)
  /\ (forall order ts, lang (fst (sched order (st0, ts))) = lang st0).
Proof.
  intros Hinit requested.
  apply init_Serving in Hinit as (d1 & d2 & ->). simpl. fold requested.
  repeat match goal with |- _ /\ _ => split end.
  - apply switch_lang_listed.
  - apply switch_lang_other.
  - apply switch_lang_in.
  - intros acts.
    match goal with |- lang (perform_all _ ?s) = _ =>
      apply (perform_all_same_config acts s) end.
  - intros order ts.
    match goal with |- lang (fst (sched _ (?s, _))) = _ =>
      apply (sched_same_config order (s, ts)) end.
Qed.

(** C10. The two reloads open the paths that [init] took from the
    configuration (the flags [-db_asn] and [-db_geoip], else the
    environment, else the defaults): after any requests and any changes
    of the files, a reload opens one file, the configured one, and what
    it does is the same for every request context, so nothing sent with
    the request can select another path. *)
Theorem reload_opens_configured_path (getenv : string -> string)
    (args : gmap string string) (fs : string -> result mmdb) (st0 : State) :
  init getenv args fs = Serving st0 ->
  asnDB st0 =
    flag_String args "db_asn" (Getenv_or getenv "IPINFO_DB_ASN" defaultAsnDB)
  /\ geoDB st0 =
    flag_String args "db_geoip"
      (Getenv_or getenv "IPINFO_DB_GEOIP" defaultGeoDB)
  /\ (forall acts c,
        let st := perform_all acts st0 in
        opened_files (new_events st (snd (run (asn_reload c) st)))
        = [asnDB st0]
        /\ opened_files (new_events st (snd (run (geo_reload c) st)))
           = [geoDB st0])
  /\ (forall c c', asn_reload c = asn_reload c'
                   /\ geo_reload c = geo_reload c')
  /\ (forall order ts,
        asnDB (fst (sched order (st0, ts))) = asnDB st0
        /\ geoDB (fst (sched order (st0, ts))) = geoDB st0).
Proof.
  intros Hinit.
  repeat match goal with |- _ /\ _ => split end;
    try (apply init_Serving in Hinit as (d1 & d2 & ->); reflexivity).
  - intros acts c st.
    destruct (perform_all_same_config acts st0) as (_ & Hasn & Hgeo & _).
    fold st in Hasn, Hgeo. rewrite <- Hasn, <- Hgeo.
    rewrite asn_reload_events, geo_reload_events.
    split.
    + destruct (files st (asnDB st)); reflexivity.
    + destruct (files st (geoDB st)); reflexivity.
  - intros c c'. split; reflexivity.
  - intros order ts. split; apply (sched_same_config order (st0, ts)).
Qed.

(** *** The lookup routes *)

Local Abbreviation asn_ip := (asn_ip ParseIP).
Local Abbreviation geo_ip := (geo_ip ParseIP).
Local Abbreviation ipinfo_ip := (ipinfo_ip ParseIP).

Lemma same_but_log_refl (st : State) : same_but_log st st.
Proof. repeat split. Qed.

Lemma same_but_log_trans (st1 st2 st3 : State) :
  same_but_log st1 st2 -> same_but_log st2 st3 -> same_but_log st1 st3.
Proof.
  unfold same_but_log, same_config.
  intros (Hf & Hh & (Ha & Hb & Hc & Hd) & Hr & Hl).
  intros (Hf' & Hh' & (Ha' & Hb' & Hc' & Hd') & Hr' & Hl').
  repeat split; congruence.
Qed.

Lemma getAS_same_but_log (ip : string) (st : State) :
  same_but_log st (snd (run (getAS ip) st)).
Proof.
  rewrite run_getAS. destruct (ParseIP ip); simpl.
  - apply same_but_log_with_heap.
  - apply same_but_log_refl.
Qed.

Lemma getLocation_same_but_log (ip : string) (st : State) :
  same_but_log st (snd (run (getLocation ip) st)).
Proof.
  rewrite run_getLocation. destruct (ParseIP ip); simpl.
  - apply same_but_log_with_heap.
  - apply same_but_log_refl.
Qed.

Lemma run_getAS_as_of (ip : string) (st : State) :
  fst (run (getAS ip) st) =
  match ParseIP ip with
  | None => (as_zero, Some (Errorf "invalid ip address %q" ip))
  | Some ipaddr => as_of (geoip2_ASN (heap st) (asnReader st) ipaddr)
  end.
Proof.
  rewrite run_getAS. destruct (ParseIP ip) as [ipaddr |]; reflexivity.
Qed.

Lemma run_getLocation_location_of (ip : string) (st : State) :
  fst (run (getLocation ip) st) =
  match ParseIP ip with
  | None => (location_zero, Some (Errorf "invalid ip address %q" ip))
  | Some ipaddr =>
      location_of (lang st) (geoip2_City (heap st) (locReader st) ipaddr)
  end.
Proof.
  rewrite run_getLocation. destruct (ParseIP ip) as [ipaddr |]; reflexivity.
Qed.

Lemma run_asn_ip (c : Context) (st : State) :
  run (asn_ip c) st =
  (match snd (fst (run (getAS (Param c "ip")) st)) with
   | Some err => error_response err
   | None =>
       {| status := StatusOK;
          payload := JAs (fst (fst (run (getAS (Param c "ip")) st))) |}
   end,
   snd (run (getAS (Param c "ip")) st)).
Proof.
  unfold asn_ip. rewrite run_bind.
  destruct (snd (fst (run (getAS (Param c "ip")) st))); reflexivity.
Qed.

Lemma run_geo_ip (c : Context) (st : State) :
  run (geo_ip c) st =
  (match snd (fst (run (getLocation (Param c "ip")) st)) with
   | Some err => error_response err
   | None =>
       {| status := StatusOK;
          payload :=
            JLocation (fst (fst (run (getLocation (Param c "ip")) st))) |}
   end,
   snd (run (getLocation (Param c "ip")) st)).
Proof.
  unfold geo_ip. rewrite run_bind.
  destruct (snd (fst (run (getLocation (Param c "ip")) st))); reflexivity.
Qed.

Lemma run_ipinfo_ip (c : Context) (st : State) :
  run (ipinfo_ip c) st =
  (match snd (fst (run (getIPInfo (Param c "ip")) st)) with
   | Some err => error_response err
   | None =>
       {| status := StatusOK;
          payload := JIPInfo (fst (fst (run (getIPInfo (Param c "ip")) st))) |}
   end,
   snd (run (getIPInfo (Param c "ip")) st)).
Proof.
  unfold ipinfo_ip. rewrite run_bind.
  destruct (snd (fst (run (getIPInfo (Param c "ip")) st))); reflexivity.
Qed.

(** X1. On a request whose [ip] parameter [net.ParseIP] rejects, each of
    [GET /asn/:ip], [GET /geo/:ip] and [GET /ipinfo/:ip] answers 500 with
    the error [invalid ip address %q] on that parameter, and leaves the
    state, its log of reader calls included, as it was. *)
Theorem invalid_ip_on_every_route (c : Context) (st : State) :
  ParseIP (Param c "ip") = None ->
  run (asn_ip c) st =
    (error_response (Errorf "invalid ip address %q" (Param c "ip")), st)
  /\ run (geo_ip c) st =
    (error_response (Errorf "invalid ip address %q" (Param c "ip")), st)
  /\ run (ipinfo_ip c) st =
    (error_response (Errorf "invalid ip address %q" (Param c "ip")), st).
Proof.
  intros Hnil.
  unfold asn_ip, geo_ip, ipinfo_ip, getIPInfo, getAS, getLocation.
  rewrite Hnil. simpl. repeat split.
Qed.

(** X2. [GET /ipinfo/:ip] answers as [GET /geo/:ip] decides: on the same
    state the two have the same status; when the location lookup fails
    the answer of [/ipinfo] is that error, whatever the AS lookup did;
    when it succeeds the answer is 200 with the location that [/geo]
    gives and, as its AS part, the record that [getAS] returns on that
    state (the zero record when the AS lookup failed). *)
Theorem ipinfo_answers_as_geo (c : Context) (st : State) :
  status (fst (run (ipinfo_ip c) st)) = status (fst (run (geo_ip c) st))
  /\ fst (run (ipinfo_ip c) st) =
     match snd (fst (run (getLocation (Param c "ip")) st)) with
     | Some err => error_response err
     | None =>
         {| status := StatusOK;
            payload :=
              JIPInfo
                {| AS := fst (fst (run (getAS (Param c "ip")) st));
                   Location :=
                     fst (fst (run (getLocation (Param c "ip")) st)) |} |}
     end.
Proof.
  rewrite run_ipinfo_ip, run_geo_ip, run_getIPInfo. simpl.
  destruct (run_same_but_log (getLocation (Param c "ip")) st
              (snd (run (getAS (Param c "ip")) st))
              (getAS_same_but_log (Param c "ip") st)) as [-> _].
  destruct (snd (fst (run (getLocation (Param c "ip")) st))); split;
    reflexivity.
Qed.

Lemma handler_same_but_log (r : Request) (st : State) :
  is_reload r = false -> same_but_log st (snd (run (handler r) st)).
Proof.
  intros Hr. rewrite handler_state.
  destruct r as [c | c | c | c | c]; try discriminate.
  - apply getAS_same_but_log.
  - apply getLocation_same_but_log.
  - eapply same_but_log_trans;
      [apply getAS_same_but_log | apply getLocation_same_but_log].
Qed.

Lemma handler_new_queries (r : Request) (st : State) :
  is_reload r = false ->
  exists evs, log (snd (run (handler r) st)) = evs ++ log st
              /\ forallb is_query evs = true.
Proof.
  intros Hr. rewrite handler_state.
  destruct r as [c | c | c | c | c]; try discriminate;
    rewrite ?run_getLocation, ?run_getAS;
    destruct (ParseIP (Param c "ip")) as [ipaddr |]; simpl.
  - exists [EvASN (asnReader st) ipaddr]. split; reflexivity.
  - exists []. split; reflexivity.
  - exists [EvCity (locReader st) ipaddr]. split; reflexivity.
  - exists []. split; reflexivity.
  - exists [EvCity (locReader st) ipaddr; EvASN (asnReader st) ipaddr].
    split; reflexivity.
  - exists []. split; reflexivity.
Qed.

(** X3. Serving a lookup ([/asn/:ip], [/geo/:ip], [/ipinfo/:ip]) changes
    nothing but the log, where it adds lookups only: files, readers,
    reader variables and configuration are as before, and every request
    served afterwards, a reload included, answers what it would have
    answered without that lookup. *)
Theorem lookup_changes_only_the_log (r : Request) (st : State) :
  is_reload r = false ->
  same_but_log st (snd (run (handler r) st))
  /\ (exists evs, log (snd (run (handler r) st)) = evs ++ log st
                  /\ forallb is_query evs = true)
  /\ (forall r', fst (run (handler r') (snd (run (handler r) st)))
                 = fst (run (handler r') st)).
Proof.
  intros Hr. split; [apply handler_same_but_log, Hr |].
  split; [apply handler_new_queries, Hr |].
  intros r'. apply run_same_but_log, handler_same_but_log, Hr.
Qed.

(** *** The database behind each reader variable *)

Lemma reachable_serving (getenv : string -> string)
    (args : gmap string string) (fs : string -> result mmdb) (st0 : State)
    (acts : list action) :
  init getenv args fs = Serving st0 ->
  forallb reload_alone acts = true ->
  serving (perform_all acts st0).
Proof.
  intros Hinit Halone. apply serving_perform_all; [exact Halone |].
  apply (init_serving _ _ _ _ Hinit).
Qed.

Lemma open_reader_ASN (hp : list Reader) (h : handle) (r : Reader) (ip : IP) :
  hp !! h = Some r -> closed r = false ->
  geoip2_ASN hp h ip = mmdb_ASN (db r) ip.
Proof. intros Hr Hc. unfold geoip2_ASN. rewrite Hr, Hc. reflexivity. Qed.

Lemma open_reader_City (hp : list Reader) (h : handle) (r : Reader) (ip : IP) :
  hp !! h = Some r -> closed r = false ->
  geoip2_City hp h ip = mmdb_City (db r) ip.
Proof. intros Hr Hc. unfold geoip2_City. rewrite Hr, Hc. reflexivity. Qed.

Lemma serving_answers (st : State) :
  serving st ->
  exists da dg,
    current (heap st) (asnReader st) = Some da
    /\ current (heap st) (locReader st) = Some dg
    /\ (forall ip,
          fst (run (getAS ip) st) =
          match ParseIP ip with
          | None => (as_zero, Some (Errorf "invalid ip address %q" ip))
          | Some ipaddr => as_of (mmdb_ASN da ipaddr)
          end)
    /\ (forall ip,
          fst (run (getLocation ip) st) =
          match ParseIP ip with
          | None => (location_zero, Some (Errorf "invalid ip address %q" ip))
          | Some ipaddr => location_of (lang st) (mmdb_City dg ipaddr)
          end).
Proof.
  intros Hs.
  destruct (asn_open st Hs) as (ra & Hra & Hca).
  destruct (loc_open st Hs) as (rl & Hrl & Hcl).
  exists (db ra), (db rl). unfold current. rewrite Hra, Hrl.
  split; [reflexivity |]. split; [reflexivity |]. split; intros ip.
  - rewrite run_getAS_as_of. destruct (ParseIP ip) as [ipaddr |];
      [| reflexivity].
    rewrite (open_reader_ASN _ _ _ _ Hra Hca). reflexivity.
  - rewrite run_getLocation_location_of.
    destruct (ParseIP ip) as [ipaddr |]; [| reflexivity].
    rewrite (open_reader_City _ _ _ _ Hrl Hcl). reflexivity.
Qed.

(** X4. In a server started by [init] where every reload has been served
    with nothing else in flight, each reader variable has a database
    behind it, and every lookup is answered from that database: [getAS]
    returns the number and organization of its ASN record or its error,
    [getLocation] the codes and the names in the language fixed at start
    of its city record or its error; the error of a closed or missing
    reader never shows. *)
Theorem lookups_answer_from_current (getenv : string -> string)
    (args : gmap string string) (fs : string -> result mmdb) (st0 : State)
    (acts : list action) :
  init getenv args fs = Serving st0 ->
  forallb reload_alone acts = true ->
  let st := perform_all acts st0 in
  exists da dg,
    current (heap st) (asnReader st) = Some da
    /\ current (heap st) (locReader st) = Some dg
    /\ (forall ip,
          fst (run (getAS ip) st) =
          match ParseIP ip with
          | None => (as_zero, Some (Errorf "invalid ip address %q" ip))
          | Some ipaddr => as_of (mmdb_ASN da ipaddr)
          end)
    /\ (forall ip,
          fst (run (getLocation ip) st) =
          match ParseIP ip with
          | None => (location_zero, Some (Errorf "invalid ip address %q" ip))
          | Some ipaddr => location_of (lang st0) (mmdb_City dg ipaddr)
          end).
Proof.
  intros Hinit Halone st.
  destruct (perform_all_same_config acts st0) as (_ & _ & _ & Hlang).
  fold st in Hlang. rewrite <- Hlang.
  apply serving_answers, (reachable_serving _ _ _ _ _ Hinit Halone).
Qed.

Lemma current_closed_other (hp : list Reader) (new r : Reader)
    (old h : handle) :
  h <> old -> hp !! h = Some r ->
  current (geoip2_Close (hp ++ [new]) old) h = current hp h.
Proof.
  intros Hne Hr. unfold current.
  rewrite (lookup_closed_other _ _ _ _ _ Hne Hr), Hr. reflexivity.
Qed.

Lemma City_closed_other (hp : list Reader) (new r : Reader) (old h : handle)
    (ip : IP) :
  h <> old -> hp !! h = Some r ->
  geoip2_City (geoip2_Close (hp ++ [new]) old) h ip = geoip2_City hp h ip.
Proof.
  intros Hne Hr. unfold geoip2_City.
  rewrite (lookup_closed_other _ _ _ _ _ Hne Hr), Hr. reflexivity.
Qed.

Lemma ASN_closed_other (hp : list Reader) (new r : Reader) (old h : handle)
    (ip : IP) :
  h <> old -> hp !! h = Some r ->
  geoip2_ASN (geoip2_Close (hp ++ [new]) old) h ip = geoip2_ASN hp h ip.
Proof.
  intros Hne Hr. unfold geoip2_ASN.
  rewrite (lookup_closed_other _ _ _ _ _ Hne Hr), Hr. reflexivity.
Qed.

Lemma asn_reload_installs (c : Context) (st : State) (d : mmdb) :
  serving st -> files st (asnDB st) = Ok d ->
  status (fst (run (asn_reload c) st)) = StatusOK
  /\ asnReader (snd (run (asn_reload c) st)) = length (heap st)
  /\ locReader (snd (run (asn_reload c) st)) = locReader st
  /\ current (heap (snd (run (asn_reload c) st))) (length (heap st)) = Some d
  /\ current (heap (snd (run (asn_reload c) st))) (locReader st)
     = current (heap st) (locReader st)
  /\ (exists old, heap (snd (run (asn_reload c) st)) !! asnReader st = Some old
                  /\ closed old = true)
  /\ (forall ip ipaddr, ParseIP ip = Some ipaddr ->
         fst (run (getAS ip) (snd (run (asn_reload c) st)))
         = as_of (mmdb_ASN d ipaddr))
  /\ (forall ip, fst (run (getLocation ip) (snd (run (asn_reload c) st)))
                 = fst (run (getLocation ip) st)).
Proof.
  intros Hs Hopen. rewrite run_asn_reload, Hopen. simpl.
  destruct (asn_open st Hs) as (ra & Hra & Hca).
  destruct (loc_open st Hs) as (rl & Hrl & Hcl).
  assert (Hne : locReader st <> asnReader st)
    by (intros Heq; apply (readers_differ st Hs); congruence).
  split; [reflexivity |]. split; [reflexivity |]. split; [reflexivity |].
  split; [unfold current; rewrite (lookup_closed_new _ _ _ _ Hra);
          reflexivity |].
  split; [apply (current_closed_other _ _ _ _ _ Hne Hrl) |].
  split; [exists (close_reader ra); split;
          [apply lookup_closed_old, Hra | reflexivity] |].
  split.
  - intros ip ipaddr Hparse. rewrite run_getAS_as_of, Hparse. simpl.
    rewrite (open_reader_ASN _ _ {| db := d; closed := false |} _
               (lookup_closed_new _ _ _ _ Hra) eq_refl).
    reflexivity.
  - intros ip. rewrite !run_getLocation_location_of. simpl.
    destruct (ParseIP ip) as [ipaddr |]; [| reflexivity].
    rewrite (City_closed_other _ _ _ _ _ _ Hne Hrl). reflexivity.
Qed.

Lemma geo_reload_installs (c : Context) (st : State) (d : mmdb) :
  serving st -> files st (geoDB st) = Ok d ->
  status (fst (run (geo_reload c) st)) = StatusOK
  /\ locReader (snd (run (geo_reload c) st)) = length (heap st)
  /\ asnReader (snd (run (geo_reload c) st)) = asnReader st
  /\ current (heap (snd (run (geo_reload c) st))) (length (heap st)) = Some d
  /\ current (heap (snd (run (geo_reload c) st))) (asnReader st)
     = current (heap st) (asnReader st)
  /\ (exists old, heap (snd (run (geo_reload c) st)) !! locReader st = Some old
                  /\ closed old = true)
  /\ (forall ip ipaddr, ParseIP ip = Some ipaddr ->
         fst (run (getLocation ip) (snd (run (geo_reload c) st)))
         = location_of (lang st) (mmdb_City d ipaddr))
  /\ (forall ip, fst (run (getAS ip) (snd (run (geo_reload c) st)))
                 = fst (run (getAS ip) st)).
Proof.
  intros Hs Hopen. rewrite run_geo_reload, Hopen. simpl.
  destruct (asn_open st Hs) as (ra & Hra & Hca).
  destruct (loc_open st Hs) as (rl & Hrl & Hcl).
  pose proof (readers_differ st Hs) as Hne.
  split; [reflexivity |]. split; [reflexivity |]. split; [reflexivity |].
  split; [unfold current; rewrite (lookup_closed_new _ _ _ _ Hrl);
          reflexivity |].
  split; [apply (current_closed_other _ _ _ _ _ Hne Hra) |].
  split; [exists (close_reader rl); split;
          [apply lookup_closed_old, Hrl | reflexivity] |].
  split.
  - intros ip ipaddr Hparse. rewrite run_getLocation_location_of, Hparse.
    simpl.
    rewrite (open_reader_City _ _ {| db := d; closed := false |} _
               (lookup_closed_new _ _ _ _ Hrl) eq_refl).
    reflexivity.
  - intros ip. rewrite !run_getAS_as_of. simpl.
    destruct (ParseIP ip) as [ipaddr |]; [| reflexivity].
    rewrite (ASN_closed_other _ _ _ _ _ _ Hne Hra). reflexivity.
Qed.

(** X5. In a server started by [init] where every reload has been served
    with nothing else in flight, a reload of the ASN database whose open
    succeeds answers 200, puts a reader never used before in [asnReader],
    with the content of the configured file behind it, and leaves the
    old reader closed; every [getAS] afterwards is answered from the new
    content, and every [getLocation] is answered as before the reload.
    The reload of the city database does the same with the two roles
    exchanged. *)
Theorem reload_installs_new_database (getenv : string -> string)
    (args : gmap string string) (fs : string -> result mmdb) (st0 : State)
    (acts : list action) (c : Context) (d : mmdb) :
  init getenv args fs = Serving st0 ->
  forallb reload_alone acts = true ->
  let st := perform_all acts st0 in
  (files st (asnDB st0) = Ok d ->
     let st' := snd (run (asn_reload c) st) in
     status (fst (run (asn_reload c) st)) = StatusOK
     /\ asnReader st' = length (heap st)
     /\ locReader st' = locReader st
     /\ current (heap st') (asnReader st') = Some d
     /\ current (heap st') (locReader st') = current (heap st) (locReader st)
     /\ (exists old, heap st' !! asnReader st = Some old /\ closed old = true)
     /\ (forall ip ipaddr, ParseIP ip = Some ipaddr ->
           fst (run (getAS ip) st') = as_of (mmdb_ASN d ipaddr))
     /\ (forall ip,
           fst (run (getLocation ip) st') = fst (run (getLocation ip) st)))
  /\ (files st (geoDB st0) = Ok d ->
     let st' := snd (run (geo_reload c) st) in
     status (fst (run (geo_reload c) st)) = StatusOK
     /\ locReader st' = length (heap st)
     /\ asnReader st' = asnReader st
     /\ current (heap st') (locReader st') = Some d
     /\ current (heap st') (asnReader st') = current (heap st) (asnReader st)
     /\ (exists old, heap st' !! locReader st = Some old /\ closed old = true)
     /\ (forall ip ipaddr, ParseIP ip = Some ipaddr ->
           fst (run (getLocation ip) st')
           = location_of (lang st0) (mmdb_City d ipaddr))
     /\ (forall ip,
           fst (run (getAS ip) st') = fst (run (getAS ip) st))).
Proof.
  intros Hinit Halone st.
  pose proof (reachable_serving _ _ _ _ _ Hinit Halone) as Hs. fold st in Hs.
  destruct (perform_all_same_config acts st0) as (_ & Hasn & Hgeo & Hlang).
  fold st in Hasn, Hgeo, Hlang. rewrite <- Hasn, <- Hgeo, <- Hlang.
  split; intros Hopen st'.
  - destruct (asn_reload_installs c st d Hs Hopen)
      as (H1 & H2 & H3 & H4 & H5 & H6 & H7 & H8).
    subst st'. rewrite H2, H3.
    repeat apply conj; first [assumption | reflexivity].
  - destruct (geo_reload_installs c st d Hs Hopen)
      as (H1 & H2 & H3 & H4 & H5 & H6 & H7 & H8).
    subst st'. rewrite H2, H3.
    repeat apply conj; first [assumption | reflexivity].
Qed.

(** *** Lookups in flight together *)

Lemma lookup_step {T : Type} (e : eff T) (k : T -> prog Response)
    (st : State) :
  lookup_only (asnReader st) (locReader st) (Vis e k) ->
  same_but_log st (snd (denote e st))
  /\ (exists evs, log (snd (denote e st)) = evs ++ log st
                  /\ forallb is_query evs = true)
  /\ lookup_only (asnReader st) (locReader st) (k (fst (denote e st))).
Proof.
  destruct e as [| | | | h | | h | file | h | h ip | h ip]; simpl;
    try contradiction; intros Hp.
  - split; [apply same_but_log_refl |].
    split; [exists []; split; reflexivity | apply Hp].
  - split; [apply same_but_log_refl |].
    split; [exists []; split; reflexivity | apply Hp].
  - split; [apply same_but_log_refl |].
    split; [exists []; split; reflexivity | apply Hp].
  - split; [apply same_but_log_with_heap |].
    split; [exists [EvASN h ip]; split; reflexivity | apply Hp].
  - split; [apply same_but_log_with_heap |].
    split; [exists [EvCity h ip]; split; reflexivity | apply Hp].
Qed.

Lemma sched_step_frame (st : State) (ts : pool) (i : nat) :
  Forall (lookup_only (asnReader st) (locReader st)) ts ->
  same_but_log st (fst (sched_step (st, ts) i))
  /\ (exists evs, log (fst (sched_step (st, ts) i)) = evs ++ log st
                  /\ forallb is_query evs = true)
  /\ Forall (lookup_only (asnReader st) (locReader st))
       (snd (sched_step (st, ts) i))
  /\ answers (fst (sched_step (st, ts) i)) (snd (sched_step (st, ts) i))
     = answers st ts.
Proof.
  intros Hts. unfold sched_step, pool in *. simpl.
  destruct (ts !! i) as [[a | T e k] |] eqn:Hi; simpl;
    try (split; [apply same_but_log_refl |];
         split; [exists []; split; reflexivity |];
         split; [exact Hts | reflexivity]).
  pose proof (Forall_lookup_1 _ _ _ _ Hts Hi) as Hp.
  destruct (lookup_step e k st Hp) as (Hsame & Hevs & Hk).
  destruct (denote e st) as [b st'] eqn:Hd. simpl in *.
  split; [exact Hsame |]. split; [exact Hevs |].
  split; [apply Forall_insert; assumption |].
  unfold answers. rewrite list_fmap_insert.
  rewrite (list_fmap_ext (fun p => fst (run p st'))
             (fun p => fst (run p st)) ts)
    by (intros j p _; apply run_same_but_log, Hsame).
  apply list_insert_id. rewrite list_lookup_fmap, Hi. simpl.
  rewrite Hd. reflexivity.
Qed.

Lemma sched_frame (order : list nat) (st : State) (ts : pool) :
  Forall (lookup_only (asnReader st) (locReader st)) ts ->
  same_but_log st (fst (sched order (st, ts)))
  /\ (exists evs, log (fst (sched order (st, ts))) = evs ++ log st
                  /\ forallb is_query evs = true)
  /\ answers (fst (sched order (st, ts))) (snd (sched order (st, ts)))
     = answers st ts.
Proof.
  revert st ts. induction order as [| i order IH]; intros st ts Hts; simpl.
  - split; [apply same_but_log_refl |].
    split; [exists []; split; reflexivity | reflexivity].
  - destruct (sched_step_frame st ts i Hts)
      as (Hsame & (evs & Hlog & Hq) & Hts' & Hans).
    destruct (sched_step (st, ts) i) as [st' ts']. simpl in *.
    assert (Hr : asnReader st' = asnReader st /\ locReader st' = locReader st)
      by (split; apply Hsame).
    destruct Hr as [Ha Hl]. rewrite <- Ha, <- Hl in Hts'.
    destruct (IH st' ts' Hts') as (Hsame' & (evs' & Hlog' & Hq') & Hans').
    split; [eapply same_but_log_trans; eassumption |].
    split.
    + exists (evs' ++ evs). rewrite Hlog', Hlog, app_assoc.
      split; [reflexivity |]. rewrite forallb_app, Hq', Hq. reflexivity.
    + rewrite Hans'. exact Hans.
Qed.

(** X6. Lookups in flight together do not disturb each other: when no
    reload is among the requests in flight, then however their actions
    are interleaved, every request that has finished has the answer it
    would have had if it had been served alone from the state at the
    start, and the state differs from that one by lookups added to the
    log only. *)
Theorem concurrent_lookups_answer_as_alone (rs : list Request)
    (order : list nat) (st : State) :
  forallb (fun r => negb (is_reload r)) rs = true ->
  same_but_log st (fst (sched order (st, spawn rs)))
  /\ (exists evs, log (fst (sched order (st, spawn rs))) = evs ++ log st
                  /\ forallb is_query evs = true)
  /\ (forall i resp,
        snd (sched order (st, spawn rs)) !! i = Some (Ret resp) ->
        exists r, rs !! i = Some r /\ resp = fst (run (handler r) st)).
Proof.
  intros Hrs.
  destruct (sched_frame order st (spawn rs)
              (lookup_only_spawn _ _ rs Hrs)) as (Hsame & Hevs & Hans).
  split; [exact Hsame |]. split; [exact Hevs |].
  intros i resp Hi. unfold pool in *.
  assert (Hresp : answers st (spawn rs) !! i = Some resp).
  { rewrite <- Hans. unfold answers. rewrite list_lookup_fmap.
    unfold pool in *. rewrite Hi. reflexivity. }
  unfold answers in Hresp.
  change (spawn rs) with (handler <$> rs) in Hresp.
  rewrite !list_lookup_fmap in Hresp.
  destruct (rs !! i) as [r |]; [| discriminate].
  exists r. split; [reflexivity |]. simpl in Hresp. congruence.
Qed.

(** *** Readers opened and closed *)

Lemma closed_once_queries (evs l : list event) :
  forallb is_query evs = true -> closed_once (evs ++ l) = closed_once l.
Proof.
  induction evs as [| ev evs IH]; simpl; intros Hq; [reflexivity |].
  apply andb_true_iff in Hq as [Hev Hq]. rewrite (IH Hq).
  destruct ev; try discriminate; reflexivity.
Qed.

Lemma tidy_frame (st st' : State) (evs : list event) :
  tidy st -> same_but_log st st' ->
  log st' = evs ++ log st -> forallb is_query evs = true ->
  tidy st'.
Proof.
  intros [Hopen Honce] (_ & Hh & _ & Ha & Hl) Hlog Hq. constructor.
  - rewrite Hh, Ha, Hl. exact Hopen.
  - rewrite Hlog, closed_once_queries; assumption.
Qed.

Lemma tidy_open_failed (st : State) (file : string) :
  tidy st -> tidy (with_heap (heap st) (EvOpen file None) st).
Proof. intros [Hopen Honce]. constructor; simpl; assumption. Qed.

Lemma open_after_reload (hp : list Reader) (new : Reader) (old h : handle) :
  open_reader (geoip2_Close (hp ++ [new]) old) h ->
  h = length hp \/ (h <> old /\ open_reader hp h).
Proof.
  intros (r & Hr & Hc). unfold geoip2_Close in Hr.
  destruct (decide (h = length hp)) as [-> | Hlen]; [left; reflexivity |].
  right. destruct (decide (h = old)) as [-> | Hne].
  - rewrite list_lookup_alter_eq in Hr.
    apply fmap_Some in Hr as (r' & _ & ->). discriminate.
  - split; [exact Hne |]. rewrite list_lookup_alter_ne in Hr by congruence.
    pose proof (lookup_lt_Some _ _ _ Hr) as Hlt.
    rewrite length_app in Hlt. simpl in Hlt.
    rewrite lookup_app_l in Hr by lia. exists r. split; assumption.
Qed.

Lemma tidy_asn_reloaded (st : State) (d : mmdb) :
  serving st -> tidy st ->
  tidy
    (with_asnReader (length (heap st))
       (with_heap
          (geoip2_Close (heap st ++ [{| db := d; closed := false |}])
             (asnReader st))
          (EvClose (asnReader st))
          (with_heap (heap st ++ [{| db := d; closed := false |}])
             (EvOpen (asnDB st) (Some (length (heap st)))) st))).
Proof.
  intros Hs [Hopen Honce]. constructor; simpl.
  - intros h Hh. apply open_after_reload in Hh as [-> | [Hne Hh]].
    + left. reflexivity.
    + right. destruct (Hopen h Hh) as [-> | ->]; [contradiction | reflexivity].
  - rewrite (open_reader_not_closed_in_log st _ Hs (asn_open st Hs)).
    exact Honce.
Qed.

Lemma tidy_geo_reloaded (st : State) (d : mmdb) :
  serving st -> tidy st ->
  tidy
    (with_locReader (length (heap st))
       (with_heap
          (geoip2_Close (heap st ++ [{| db := d; closed := false |}])
             (locReader st))
          (EvClose (locReader st))
          (with_heap (heap st ++ [{| db := d; closed := false |}])
             (EvOpen (geoDB st) (Some (length (heap st)))) st))).
Proof.
  intros Hs [Hopen Honce]. constructor; simpl.
  - intros h Hh. apply open_after_reload in Hh as [-> | [Hne Hh]].
    + right. reflexivity.
    + left. destruct (Hopen h Hh) as [-> | ->]; [reflexivity | contradiction].
  - rewrite (open_reader_not_closed_in_log st _ Hs (loc_open st Hs)).
    exact Honce.
Qed.

Lemma tidy_perform (st : State) (a : action) :
  reload_alone a = true -> serving st -> tidy st -> tidy (perform st a).
Proof.
  intros Halone Hs Ht. destruct a as [r | rs order | file d]; simpl.
  - destruct (is_reload r) eqn:Hr.
    + rewrite handler_state. destruct r as [c | c | c | c | c];
        try discriminate.
      * rewrite run_asn_reload. destruct (files st (asnDB st)); simpl.
        -- apply tidy_asn_reloaded; assumption.
        -- apply tidy_open_failed, Ht.
      * rewrite run_geo_reload. destruct (files st (geoDB st)); simpl.
        -- apply tidy_geo_reloaded; assumption.
        -- apply tidy_open_failed, Ht.
    + destruct (handler_new_queries r st Hr) as (evs & Hlog & Hq).
      eapply tidy_frame; [exact Ht | | exact Hlog | exact Hq].
      apply handler_same_but_log, Hr.
  - destruct (sched_frame order st (spawn rs)
                (lookup_only_spawn _ _ rs Halone))
      as (Hsame & (evs & Hlog & Hq) & _).
    eapply tidy_frame; eassumption.
  - destruct Ht as [Hopen Honce]. constructor; assumption.
Qed.

Lemma tidy_perform_all (acts : list action) (st : State) :
  forallb reload_alone acts = true -> serving st -> tidy st ->
  tidy (perform_all acts st).
Proof.
  revert st. induction acts as [| a acts IH]; intros st Halone Hs Ht; simpl.
  - exact Ht.
  - simpl in Halone. apply andb_true_iff in Halone as [Ha Hacts].
    apply IH; [exact Hacts | |].
    + apply serving_perform; assumption.
    + apply tidy_perform; assumption.
Qed.

Lemma init_tidy (getenv : string -> string) (args : gmap string string)
    (fs : string -> result mmdb) (st0 : State) :
  init getenv args fs = Serving st0 -> tidy st0.
Proof.
  intros Hinit. apply init_Serving in Hinit as (d1 & d2 & ->).
  constructor; simpl; [| reflexivity].
  intros h (r & Hr & _). destruct h as [| [| h]]; simpl in Hr.
  - left. reflexivity.
  - right. reflexivity.
  - discriminate.
Qed.

(** X7. In a server started by [init] where every reload has been served
    with nothing else in flight, no reader is leaked and none is closed
    twice: the readers that are open are exactly the two held by
    [asnReader] and [locReader], which are different readers, and no
    [Close] was ever called on a reader already closed. *)
Theorem readers_neither_leaked_nor_closed_twice (getenv : string -> string)
    (args : gmap string string) (fs : string -> result mmdb) (st0 : State)
    (acts : list action) :
  init getenv args fs = Serving st0 ->
  forallb reload_alone acts = true ->
  let st := perform_all acts st0 in
  (forall h, open_reader (heap st) h
             <-> h = asnReader st \/ h = locReader st)
  /\ asnReader st <> locReader st
  /\ closed_once (log st) = true.
Proof.
  intros Hinit Halone st.
  pose proof (reachable_serving _ _ _ _ _ Hinit Halone) as Hs. fold st in Hs.
  assert (Ht : tidy st).
  { apply tidy_perform_all; [exact Halone | |].
    - apply (init_serving _ _ _ _ Hinit).
    - apply (init_tidy _ _ _ _ Hinit). }
  split; [| split; [apply Hs | apply Ht]].
  intros h. split; [apply Ht |].
  intros [-> | ->]; apply Hs.
Qed.

(** *** Reloads that fail, in flight with lookups *)

Lemma lookup_only_quiet {A : Type} (fs : string -> result mmdb)
    (aDB gDB : string) (ha hl : handle) (p : prog A) :
  lookup_only ha hl p -> quiet fs aDB gDB ha hl p.
Proof.
  induction p as [a | T e k IH]; simpl; [intros _; exact I |].
  destruct e as [| | | | h | | h | file | h | h ip | h ip]; simpl;
    try contradiction; intros Hp.
  - intros l. apply IH, Hp.
  - apply IH, Hp.
  - apply IH, Hp.
  - destruct Hp as [Hh Hp]. split; [exact Hh |]. intros r. apply IH, Hp.
  - destruct Hp as [Hh Hp]. split; [exact Hh |]. intros r. apply IH, Hp.
Qed.

Lemma quiet_handler (st : State) (r : Request) :
  replaces_no_reader st r = true -> quiet_in st (handler r).
Proof.
  unfold quiet_in. destruct r as [c | c | c | c | c]; simpl; intros Hr;
    try (apply lookup_only_quiet;
         apply (lookup_only_handler _ _ (GET_asn_ip c) eq_refl)
         || apply (lookup_only_handler _ _ (GET_geo_ip c) eq_refl)
         || apply (lookup_only_handler _ _ (GET_ipinfo_ip c) eq_refl)).
  - destruct (files st (asnDB st)); [discriminate | exact I].
  - destruct (files st (geoDB st)); [discriminate | exact I].
Qed.

Lemma quiet_spawn (st : State) (rs : list Request) :
  forallb (replaces_no_reader st) rs = true ->
  Forall (quiet_in st) (spawn rs).
Proof.
  induction rs as [| r rs IH]; simpl; intros Hrs.
  - constructor.
  - apply andb_true_iff in Hrs as [Hr Hrs]. constructor.
    + apply quiet_handler, Hr.
    + apply IH, Hrs.
Qed.

Lemma quiet_in_same_but_log {A : Type} (st st' : State) (p : prog A) :
  same_but_log st st' -> quiet_in st p -> quiet_in st' p.
Proof.
  unfold quiet_in, same_but_log, same_config.
  intros (-> & _ & (_ & -> & -> & _) & -> & ->). tauto.
Qed.

Lemma quiet_step {T : Type} (e : eff T) (k : T -> prog Response)
    (st : State) :
  serving st -> quiet_in st (Vis e k) ->
  serving (snd (denote e st))
  /\ same_but_log st (snd (denote e st))
  /\ quiet_in st (k (fst (denote e st))).
Proof.
  intros Hs. unfold quiet_in.
  destruct e as [| | | | h | | h | file | h | h ip | h ip]; simpl;
    try contradiction; intros Hp.
  - split; [exact Hs |]. split; [apply same_but_log_refl | apply Hp].
  - split; [exact Hs |]. split; [apply same_but_log_refl | apply Hp].
  - split; [exact Hs |]. split; [apply same_but_log_refl | apply Hp].
  - split; [exact Hs |]. split; [apply same_but_log_refl | apply Hp].
  - split; [exact Hs |]. split; [apply same_but_log_refl | apply Hp].
  - unfold geoip2_Open. destruct (files st file) as [d | err];
      [contradiction |]. simpl.
    split; [apply serving_open_failed, Hs |].
    split; [apply same_but_log_with_heap | exact Hp].
  - destruct Hp as [-> Hp]. split; [apply serving_asn_query, Hs |].
    split; [apply same_but_log_with_heap | apply Hp].
  - destruct Hp as [-> Hp]. split; [apply serving_city_query, Hs |].
    split; [apply same_but_log_with_heap | apply Hp].
Qed.

Lemma sched_step_quiet (st : State) (ts : pool) (i : nat) :
  serving st -> Forall (quiet_in st) ts ->
  serving (fst (sched_step (st, ts) i))
  /\ same_but_log st (fst (sched_step (st, ts) i))
  /\ Forall (quiet_in st) (snd (sched_step (st, ts) i))
  /\ answers (fst (sched_step (st, ts) i)) (snd (sched_step (st, ts) i))
     = answers st ts.
Proof.
  intros Hs Hts. unfold sched_step, pool in *. simpl.
  destruct (ts !! i) as [[a | T e k] |] eqn:Hi; simpl;
    try (split; [exact Hs |]; split; [apply same_but_log_refl |];
         split; [exact Hts | reflexivity]).
  pose proof (Forall_lookup_1 _ _ _ _ Hts Hi) as Hp.
  destruct (quiet_step e k st Hs Hp) as (Hs' & Hsame & Hk).
  destruct (denote e st) as [b st'] eqn:Hd. simpl in *.
  split; [exact Hs' |]. split; [exact Hsame |].
  split; [apply Forall_insert; assumption |].
  unfold answers. rewrite list_fmap_insert.
  rewrite (list_fmap_ext (fun p => fst (run p st'))
             (fun p => fst (run p st)) ts)
    by (intros j p _; apply run_same_but_log, Hsame).
  apply list_insert_id. rewrite list_lookup_fmap, Hi. simpl.
  rewrite Hd. reflexivity.
Qed.

Lemma sched_quiet (order : list nat) (st : State) (ts : pool) :
  serving st -> Forall (quiet_in st) ts ->
  serving (fst (sched order (st, ts)))
  /\ same_but_log st (fst (sched order (st, ts)))
  /\ answers (fst (sched order (st, ts))) (snd (sched order (st, ts)))
     = answers st ts.
Proof.
  revert st ts. induction order as [| i order IH]; intros st ts Hs Hts; simpl.
  - split; [exact Hs |]. split; [apply same_but_log_refl | reflexivity].
  - destruct (sched_step_quiet st ts i Hs Hts) as (Hs' & Hsame & Hts' & Hans).
    destruct (sched_step (st, ts) i) as [st' ts']. simpl in *.
    assert (Hts'' : Forall (quiet_in st') ts').
    { eapply Forall_impl; [exact Hts' |].
      intros p. apply quiet_in_same_but_log, Hsame. }
    destruct (IH st' ts' Hs' Hts'') as (Hs'' & Hsame' & Hans').
    split; [exact Hs'' |].
    split; [eapply same_but_log_trans; eassumption |].
    rewrite Hans'. exact Hans.
Qed.

(** X10. A reload whose file does not open is harmless also when it is
    in flight together with other requests: in a server started by [init]
    where every reload so far has been served with nothing else in
    flight, let lookups and reloads be in flight together, every one of
    these reloads on a file that does not open.  Then, however the
    actions are interleaved, no lookup is made on a closed reader, the
    two reader variables hold open readers, nothing but the log has
    changed, and every request that has finished has the answer it would
    have had if served alone. *)
Theorem failed_reloads_disturb_nothing (getenv : string -> string)
    (args : gmap string string) (fs : string -> result mmdb) (st0 : State)
    (acts : list action) (rs : list Request) (order : list nat) :
  init getenv args fs = Serving st0 ->
  forallb reload_alone acts = true ->
  let st := perform_all acts st0 in
  forallb (replaces_no_reader st) rs = true ->
  let st' := fst (sched order (st, spawn rs)) in
  safe (log st') = true
  /\ open_reader (heap st') (asnReader st')
  /\ open_reader (heap st') (locReader st')
  /\ same_but_log st st'
  /\ (forall i resp,
        snd (sched order (st, spawn rs)) !! i = Some (Ret resp) ->
        exists r, rs !! i = Some r /\ resp = fst (run (handler r) st)).
Proof.
  intros Hinit Halone st Hrs st'.
  pose proof (reachable_serving _ _ _ _ _ Hinit Halone) as Hs. fold st in Hs.
  destruct (sched_quiet order st (spawn rs) Hs (quiet_spawn st rs Hrs))
    as (Hs' & Hsame & Hans).
  fold st' in Hs', Hsame.
  split; [apply Hs' |]. split; [apply Hs' |]. split; [apply Hs' |].
  split; [exact Hsame |].
  intros i resp Hi. unfold pool in *.
  assert (Hresp : answers st (spawn rs) !! i = Some resp).
  { rewrite <- Hans. unfold answers. rewrite list_lookup_fmap.
    unfold pool in *. rewrite Hi. reflexivity. }
  unfold answers in Hresp.
  change (spawn rs) with (handler <$> rs) in Hresp.
  rewrite !list_lookup_fmap in Hresp.
  destruct (rs !! i) as [r |]; [| discriminate].
  exists r. split; [reflexivity |]. simpl in Hresp. congruence.
Qed.

(** *** Settings and startup *)

Lemma resolved_setting (getenv : string -> string)
    (args : gmap string string) (flag env def : string) :
  resolved getenv args flag env def
    (flag_String args flag (Getenv_or getenv env def)).
Proof.
  unfold resolved, flag_String, Getenv_or.
  destruct (args !! flag) as [v |].
  - split; [intros v' Hv; congruence |]. split; discriminate.
  - split; [discriminate |].
    destruct (String.eqb_spec (getenv env) "") as [Hempty | Hset].
    + split; [intros _ Hne; contradiction | reflexivity].
    + split; [reflexivity | intros _ Hempty; contradiction].
Qed.

(** X8. [init] settles the listening address and the two database paths
    by the same rule: the flag ([-a], [-db_asn], [-db_geoip]) when it is
    given, even when it is given empty; else the environment variable
    ([IPINFO_ADDR], [IPINFO_DB_ASN], [IPINFO_DB_GEOIP]) when it is not
    the empty string; else the default.  The language is settled by the
    same rule from [-l], [IPINFO_LANG] and [en], and then passed through
    the list of languages. *)
Theorem settings_precedence (getenv : string -> string)
    (args : gmap string string) (fs : string -> result mmdb) (st0 : State) :
  init getenv args fs = Serving st0 ->
  resolved getenv args "a" "IPINFO_ADDR" defaultAddr (addr st0)
  /\ resolved getenv args "db_asn" "IPINFO_DB_ASN" defaultAsnDB (asnDB st0)
  /\ resolved getenv args "db_geoip" "IPINFO_DB_GEOIP" defaultGeoDB
       (geoDB st0)
  /\ exists l, resolved getenv args "l" "IPINFO_LANG" defaultLang l
               /\ lang st0 = switch_lang l.
Proof.
  intros Hinit. apply init_Serving in Hinit as (d1 & d2 & ->). simpl.
  split; [apply resolved_setting |]. split; [apply resolved_setting |].
  split; [apply resolved_setting |].
  eexists. split; [apply resolved_setting | reflexivity].
Qed.

Lemma init_panics_asn (getenv : string -> string)
    (args : gmap string string) (fs : string -> result mmdb) (e : error) :
  ginModeValid
    (flag_String args "m" (Getenv_or getenv "IPINFO_MODE" defaultMode)) = true ->
  fs (flag_String args "db_asn"
        (Getenv_or getenv "IPINFO_DB_ASN" defaultAsnDB)) = Err e ->
  init getenv args fs = Panic e.
Proof.
  unfold init.
  generalize (flag_String args "a" (Getenv_or getenv "IPINFO_ADDR" defaultAddr)).
  generalize (flag_String args "m" (Getenv_or getenv "IPINFO_MODE" defaultMode)).
  generalize (flag_String args "db_asn"
                (Getenv_or getenv "IPINFO_DB_ASN" defaultAsnDB)).
  generalize (flag_String args "db_geoip"
                (Getenv_or getenv "IPINFO_DB_GEOIP" defaultGeoDB)).
  generalize (switch_lang
                (flag_String args "l"
                   (Getenv_or getenv "IPINFO_LANG" defaultLang))).
  intros l gDB aDB mode a Hmode Hasn. rewrite Hmode.
  unfold loadDB. rewrite run_act. cbn [denote files heap asnDB].
  unfold geoip2_Open. rewrite Hasn. reflexivity.
Qed.

Lemma init_panics_geo (getenv : string -> string)
    (args : gmap string string) (fs : string -> result mmdb) (d : mmdb)
    (e : error) :
  ginModeValid
    (flag_String args "m" (Getenv_or getenv "IPINFO_MODE" defaultMode)) = true ->
  fs (flag_String args "db_asn"
        (Getenv_or getenv "IPINFO_DB_ASN" defaultAsnDB)) = Ok d ->
  fs (flag_String args "db_geoip"
        (Getenv_or getenv "IPINFO_DB_GEOIP" defaultGeoDB)) = Err e ->
  init getenv args fs = Panic e.
Proof.
  unfold init.
  generalize (flag_String args "a" (Getenv_or getenv "IPINFO_ADDR" defaultAddr)).
  generalize (flag_String args "m" (Getenv_or getenv "IPINFO_MODE" defaultMode)).
  generalize (flag_String args "db_asn"
                (Getenv_or getenv "IPINFO_DB_ASN" defaultAsnDB)).
  generalize (flag_String args "db_geoip"
                (Getenv_or getenv "IPINFO_DB_GEOIP" defaultGeoDB)).
  generalize (switch_lang
                (flag_String args "l"
                   (Getenv_or getenv "IPINFO_LANG" defaultLang))).
  intros l gDB aDB mode a Hmode Hasn Hgeo. rewrite Hmode.
  unfold loadDB. rewrite run_act. cbn [denote files heap asnDB].
  unfold geoip2_Open at 1. rewrite Hasn.
  rewrite run_act. cbn. unfold geoip2_Open. rewrite Hgeo. reflexivity.
Qed.

Lemma init_panics_mode (getenv : string -> string)
    (args : gmap string string) (fs : string -> result mmdb) :
  ginModeValid
    (flag_String args "m" (Getenv_or getenv "IPINFO_MODE" defaultMode)) = false ->
  init getenv args fs = Panic (LibError "gin mode unknown").
Proof.
  unfold init.
  generalize (flag_String args "m" (Getenv_or getenv "IPINFO_MODE" defaultMode)).
  intros mode Hmode. rewrite Hmode. reflexivity.
Qed.

Lemma init_serves (getenv : string -> string)
    (args : gmap string string) (fs : string -> result mmdb) (d1 d2 : mmdb) :
  ginModeValid
    (flag_String args "m" (Getenv_or getenv "IPINFO_MODE" defaultMode)) = true ->
  fs (flag_String args "db_asn"
        (Getenv_or getenv "IPINFO_DB_ASN" defaultAsnDB)) = Ok d1 ->
  fs (flag_String args "db_geoip"
        (Getenv_or getenv "IPINFO_DB_GEOIP" defaultGeoDB)) = Ok d2 ->
  exists st0, init getenv args fs = Serving st0.
Proof.
  unfold init.
  generalize (flag_String args "a" (Getenv_or getenv "IPINFO_ADDR" defaultAddr)).
  generalize (flag_String args "m" (Getenv_or getenv "IPINFO_MODE" defaultMode)).
  generalize (flag_String args "db_asn"
                (Getenv_or getenv "IPINFO_DB_ASN" defaultAsnDB)).
  generalize (flag_String args "db_geoip"
                (Getenv_or getenv "IPINFO_DB_GEOIP" defaultGeoDB)).
  generalize (switch_lang
                (flag_String args "l"
                   (Getenv_or getenv "IPINFO_LANG" defaultLang))).
  intros l gDB aDB mode a Hmode Hasn Hgeo. rewrite Hmode.
  unfold loadDB. rewrite run_act. cbn [denote files heap asnDB].
  unfold geoip2_Open at 1. rewrite Hasn.
  rewrite run_act. cbn. unfold geoip2_Open. rewrite Hgeo.
  eexists. reflexivity.
Qed.

(** X9. [init] leaves a server exactly when the mode is one that gin
    accepts and both database files open; otherwise it panics.  When the
    mode is not accepted it panics whatever the files are, in the same
    way for any files, because [gin.SetMode] comes before the loads.
    When the mode is accepted it panics with the error of the ASN file
    when that one does not open, whatever the city file is, and with the
    error of the city file when only that one does not open. *)
Theorem init_serves_or_panics (getenv : string -> string)
    (args : gmap string string) (fs : string -> result mmdb) :
  let mode :=
    flag_String args "m" (Getenv_or getenv "IPINFO_MODE" defaultMode) in
  let aDB :=
    flag_String args "db_asn"
      (Getenv_or getenv "IPINFO_DB_ASN" defaultAsnDB) in
  let gDB :=
    flag_String args "db_geoip"
      (Getenv_or getenv "IPINFO_DB_GEOIP" defaultGeoDB) in
  ((exists st0, init getenv args fs = Serving st0)
   <-> ginModeValid mode = true
       /\ (exists d, fs aDB = Ok d) /\ (exists d, fs gDB = Ok d))
  /\ (forall e, ginModeValid mode = true -> fs aDB = Err e ->
                init getenv args fs = Panic e)
  /\ (forall d e, ginModeValid mode = true -> fs aDB = Ok d ->
                  fs gDB = Err e -> init getenv args fs = Panic e)
  /\ (ginModeValid mode = false ->
      exists e, init getenv args fs = Panic e)
  /\ (ginModeValid mode = false ->
      forall fs', init getenv args fs' = init getenv args fs).
Proof.
  intros mode aDB gDB.
  split; [| split; [| split; [| split]]].
  - split.
    + intros (st0 & Hinit).
      destruct (ginModeValid mode) eqn:Hmode.
      * destruct (fs aDB) as [d1 | e1] eqn:Hasn.
        -- destruct (fs gDB) as [d2 | e2] eqn:Hgeo.
           ++ split; [reflexivity |]. split; eexists; reflexivity.
           ++ rewrite (init_panics_geo _ _ _ _ _ Hmode Hasn Hgeo) in Hinit.
              discriminate.
        -- rewrite (init_panics_asn _ _ _ _ Hmode Hasn) in Hinit.
           discriminate.
      * rewrite (init_panics_mode _ _ _ Hmode) in Hinit. discriminate.
    + intros (Hmode & (d1 & Hasn) & (d2 & Hgeo)).
      apply (init_serves _ _ _ _ _ Hmode Hasn Hgeo).
  - intros e Hmode Hasn. apply (init_panics_asn _ _ _ _ Hmode Hasn).
  - intros d e Hmode Hasn Hgeo.
    apply (init_panics_geo _ _ _ _ _ Hmode Hasn Hgeo).
  - intros Hmode. eexists. apply (init_panics_mode _ _ _ Hmode).
  - intros Hmode fs'.
    rewrite (init_panics_mode _ _ fs Hmode), (init_panics_mode _ _ fs' Hmode).
    reflexivity.
Qed.

(** *** Reloads in flight with other requests *)




































End ServerProperties.

(** * The properties on the fixture *)

Lemma getIPInfo_partial_failure_witness :
  run (getIPInfo Fixture.ParseIP "1.1.1.1") Fixture.started =
    (({| AS := as_zero;
         Location :=
           {| Continent := "Oceania"; ContinentCode := "OC";
              Country := "Australia"; CountryCode := "AU";
              City := "Sydney" |} |}, None),
     snd (run (getIPInfo Fixture.ParseIP "1.1.1.1") Fixture.started))
  /\ snd (fst (run (getIPInfo Fixture.ParseIP "9.9.9.9") Fixture.started))
     = Some Fixture.no_record
  /\ snd (fst (run (getIPInfo Fixture.ParseIP "not-an-ip") Fixture.started))
     = Some (Errorf "invalid ip address %q" "not-an-ip")
  /\ AS (fst (fst (run (getIPInfo Fixture.ParseIP "not-an-ip")
                      Fixture.started)))
     = as_zero.
Proof.
  destruct (getIPInfo_partial_failure Fixture.ParseIP "1.1.1.1"
              Fixture.started) as (_ & _ & _ & _ & Hswallow & _).
  destruct (getIPInfo_partial_failure Fixture.ParseIP "9.9.9.9"
              Fixture.started) as (_ & _ & _ & _ & _ & Hsurface).
  destruct (getIPInfo_partial_failure Fixture.ParseIP "not-an-ip"
              Fixture.started) as (_ & _ & _ & Hzero & _ & Hboth).
  split; [| split; [| split]].
  - apply (Hswallow as_zero Fixture.no_record _
             (snd (run (getAS Fixture.ParseIP "1.1.1.1") Fixture.started)));
      reflexivity.
  - apply (Hsurface {| Number := 19281%N; Name := "Quad9" |} None
             Fixture.no_record location_zero
             (snd (run (getAS Fixture.ParseIP "9.9.9.9") Fixture.started))
             (snd (run (getIPInfo Fixture.ParseIP "9.9.9.9") Fixture.started)));
      reflexivity.
  - apply (Hboth as_zero
             (Some (Errorf "invalid ip address %q" "not-an-ip"))
             (Errorf "invalid ip address %q" "not-an-ip") location_zero
             Fixture.started Fixture.started); reflexivity.
  - apply (Hzero (Errorf "invalid ip address %q" "not-an-ip")). reflexivity.
Defined.

Lemma reload_closes_then_stores_witness :
  new_events Fixture.asn_file_updated
    (snd (run (asn_reload Fixture.no_params) Fixture.asn_file_updated)) =
    [EvOpen defaultAsnDB (Some 2); EvClose 0; EvSetAsnReader 2]
  /\ new_events Fixture.started
       (snd (run (geo_reload Fixture.no_params) Fixture.started)) =
     [EvOpen defaultGeoDB (Some 2); EvClose 1; EvSetLocReader 2]
  /\ new_events Fixture.files_gone
       (snd (run (asn_reload Fixture.no_params) Fixture.files_gone)) =
     [EvOpen defaultAsnDB None]
  /\ new_events Fixture.files_gone
       (snd (run (geo_reload Fixture.no_params) Fixture.files_gone)) =
     [EvOpen defaultGeoDB None].
Proof.
  destruct (reload_closes_then_stores Fixture.no_params
              Fixture.asn_file_updated) as (Hasn & _ & _ & _).
  destruct (reload_closes_then_stores Fixture.no_params Fixture.started)
    as (_ & Hgeo & _ & _).
  destruct (reload_closes_then_stores Fixture.no_params Fixture.files_gone)
    as (_ & _ & Hasn_gone & Hgeo_gone).
  split; [exact (proj1 (Hasn Fixture.asn_db' eq_refl)) |].
  split; [exact (proj1 (Hgeo Fixture.city_db eq_refl)) |].
  split; [exact (Hasn_gone Fixture.no_such_file eq_refl) |].
  exact (Hgeo_gone Fixture.no_such_file eq_refl).
Defined.

(** C2, as the spec has it, fails: the reload of the fixture succeeds, and
    its events are not an open, then the store of the new reader, then the
    close of the old one. *)
Lemma asn_reload_not_open_store_close :
  status (fst (run (asn_reload Fixture.no_params) Fixture.started)) = StatusOK
  /\ new_events Fixture.started
       (snd (run (asn_reload Fixture.no_params) Fixture.started)) =
     [EvOpen defaultAsnDB (Some 2); EvClose 0; EvSetAsnReader 2]
  /\ ~ open_store_close
         (new_events Fixture.started
            (snd (run (asn_reload Fixture.no_params) Fixture.started))).
Proof.
  split; [reflexivity |]. split; [reflexivity |].
  intros (file & h & old & [Heq | Heq]); vm_compute in Heq; discriminate.
Qed.

Lemma failed_reload_keeps_reader_witness :
  status (fst (run (asn_reload Fixture.no_params) Fixture.files_gone)) = 500
  /\ fst (run (getAS Fixture.ParseIP "8.8.8.8")
             (snd (run (asn_reload Fixture.no_params) Fixture.files_gone)))
     = ({| Number := 15169%N; Name := "Google LLC" |}, None)
  /\ status (fst (run (geo_reload Fixture.no_params) Fixture.files_gone)) = 500
  /\ fst (run (getLocation Fixture.ParseIP "1.1.1.1")
             (snd (run (geo_reload Fixture.no_params) Fixture.files_gone)))
     = fst (run (getLocation Fixture.ParseIP "1.1.1.1") Fixture.files_gone).
Proof.
  destruct (failed_reload_keeps_reader Fixture.ParseIP Fixture.no_params
              Fixture.files_gone Fixture.no_such_file) as [Hasn Hgeo].
  destruct (Hasn eq_refl) as (Hstatus & _ & _ & _ & _ & Has & _).
  destruct (Hgeo eq_refl) as (Hstatus' & _ & _ & _ & _ & _ & Hloc & _).
  split; [exact Hstatus |].
  split; [rewrite Has; reflexivity |].
  split; [exact Hstatus' | apply Hloc].
Defined.

Lemma invalid_ip_rejected_witness :
  Fixture.ParseIP "not-an-ip" = None
  /\ run (getAS Fixture.ParseIP "not-an-ip") Fixture.started =
     ((as_zero, Some (Errorf "invalid ip address %q" "not-an-ip")),
      Fixture.started)
  /\ log (snd (run (getLocation Fixture.ParseIP "not-an-ip") Fixture.started))
     = log Fixture.started.
Proof.
  destruct (invalid_ip_rejected Fixture.ParseIP "not-an-ip" Fixture.started
              eq_refl) as (_ & _ & Has & Hloc).
  split; [reflexivity |]. split; [exact Has |]. rewrite Hloc. reflexivity.
Defined.



Lemma location_names_in_language_witness :
  run (getLocation Fixture.ParseIP "8.8.8.8") Fixture.started_fr =
    (({| Continent := "Amérique du Nord"; ContinentCode := "NA";
         Country := "États-Unis"; CountryCode := "US"; City := "" |}, None),
     snd (run (getLocation Fixture.ParseIP "8.8.8.8") Fixture.started_fr))
  /\ exists ipaddr geo,
       Fixture.ParseIP "8.8.8.8" = Some ipaddr
       /\ geoip2.City_Names geo !! "en" = Some "Mountain View"
       /\ geoip2_City (heap Fixture.started_fr) (locReader Fixture.started_fr)
            ipaddr = Ok geo.
Proof.
  split; [reflexivity |].
  destruct (location_names_in_language Fixture.ParseIP "8.8.8.8"
              Fixture.started_fr _ _ eq_refl)
    as (ipaddr & geo & Hparse & Hq & _).
  exists ipaddr, geo. split; [exact Hparse |]. split; [| exact Hq].
  injection Hparse as <-. vm_compute in Hq. injection Hq as <-.
  reflexivity.
Defined.

Lemma language_fixed_at_startup_witness :
  init Fixture.ginModeValid Fixture.getenv Fixture.no_args Fixture.disk
  = Serving Fixture.started
  /\ lang Fixture.started ∈ languages
  /\ forall acts,
       lang (perform_all Fixture.ParseIP acts Fixture.started) = "en".
Proof.
  destruct (language_fixed_at_startup Fixture.ParseIP Fixture.ginModeValid
              Fixture.getenv Fixture.no_args Fixture.disk Fixture.started
              eq_refl) as (_ & _ & Hin & Hseq & _).
  split; [reflexivity |]. split; [exact Hin | exact Hseq].
Defined.

Lemma error_with_zero_record_witness :
  snd (fst (run (getAS Fixture.ParseIP "1.1.1.1") Fixture.started))
    = Some Fixture.no_record
  /\ fst (fst (run (getAS Fixture.ParseIP "1.1.1.1") Fixture.started))
     = as_zero
  /\ fst (fst (run (getLocation Fixture.ParseIP "9.9.9.9") Fixture.started))
     = location_zero
  /\ snd (fst (run (getAS Fixture.ParseIP "8.8.8.8") Fixture.started)) = None.
Proof.
  destruct (error_with_zero_record Fixture.ParseIP "1.1.1.1" Fixture.started)
    as (Has & _).
  destruct (error_with_zero_record Fixture.ParseIP "9.9.9.9" Fixture.started)
    as (_ & Hloc & _).
  destruct (error_with_zero_record Fixture.ParseIP "8.8.8.8" Fixture.started)
    as (_ & _ & Hnz & _).
  split; [reflexivity |]. split; [| split].
  - apply (Has _ Fixture.no_record
             (snd (run (getAS Fixture.ParseIP "1.1.1.1") Fixture.started))).
    reflexivity.
  - apply (Hloc _ Fixture.no_record
             (snd (run (getLocation Fixture.ParseIP "9.9.9.9") Fixture.started))).
    reflexivity.
  - apply (Hnz {| Number := 15169%N; Name := "Google LLC" |} _
             (snd (run (getAS Fixture.ParseIP "8.8.8.8") Fixture.started)));
      [reflexivity | discriminate].
Defined.

Lemma reload_opens_configured_path_witness :
  init Fixture.ginModeValid Fixture.getenv Fixture.no_args Fixture.disk
  = Serving Fixture.started
  /\ opened_files
       (new_events (perform_all Fixture.ParseIP Fixture.day Fixture.started)
          (snd (run (asn_reload (Fixture.ctx "/etc/passwd"))
                  (perform_all Fixture.ParseIP Fixture.day Fixture.started))))
     = [defaultAsnDB].
Proof.
  split; [reflexivity |].
  destruct (reload_opens_configured_path Fixture.ParseIP Fixture.ginModeValid
              Fixture.getenv Fixture.no_args Fixture.disk Fixture.started
              eq_refl) as (_ & _ & Hopen & _).
  apply (Hopen Fixture.day (Fixture.ctx "/etc/passwd")).
Defined.

(** * The further properties on the fixture *)

Lemma invalid_ip_on_every_route_witness :
  Fixture.ParseIP (Param (Fixture.ctx "not-an-ip") "ip") = None
  /\ run (asn_ip Fixture.ParseIP (Fixture.ctx "not-an-ip")) Fixture.started =
     (error_response (Errorf "invalid ip address %q" "not-an-ip"),
      Fixture.started)
  /\ run (ipinfo_ip Fixture.ParseIP (Fixture.ctx "not-an-ip")) Fixture.started
     = (error_response (Errorf "invalid ip address %q" "not-an-ip"),
        Fixture.started).
Proof.
  destruct (invalid_ip_on_every_route Fixture.ParseIP
              (Fixture.ctx "not-an-ip") Fixture.started eq_refl)
    as (Hasn & _ & Hinfo).
  split; [reflexivity |]. split; [exact Hasn | exact Hinfo].
Defined.

Lemma lookup_changes_only_the_log_witness :
  is_reload (GET_ipinfo_ip (Fixture.ctx "8.8.8.8")) = false
  /\ forall r',
       fst (run (handler Fixture.ParseIP r')
              (snd (run (handler Fixture.ParseIP
                           (GET_ipinfo_ip (Fixture.ctx "8.8.8.8")))
                      Fixture.started)))
       = fst (run (handler Fixture.ParseIP r') Fixture.started).
Proof.
  split; [reflexivity |].
  apply (lookup_changes_only_the_log Fixture.ParseIP
           (GET_ipinfo_ip (Fixture.ctx "8.8.8.8")) Fixture.started eq_refl).
Defined.

Lemma lookups_answer_from_current_witness :
  init Fixture.ginModeValid Fixture.getenv Fixture.no_args Fixture.disk
  = Serving Fixture.started
  /\ forallb reload_alone Fixture.day = true
  /\ exists da dg,
       current (heap (perform_all Fixture.ParseIP Fixture.day Fixture.started))
         (asnReader (perform_all Fixture.ParseIP Fixture.day Fixture.started))
       = Some da
       /\ current (heap (perform_all Fixture.ParseIP Fixture.day Fixture.started))
            (locReader (perform_all Fixture.ParseIP Fixture.day Fixture.started))
          = Some dg.
Proof.
  split; [reflexivity |]. split; [reflexivity |].
  destruct (lookups_answer_from_current Fixture.ParseIP Fixture.ginModeValid
              Fixture.getenv Fixture.no_args Fixture.disk Fixture.started
              Fixture.day eq_refl eq_refl) as (da & dg & Hasn & Hgeo & _).
  exists da, dg. split; [exact Hasn | exact Hgeo].
Defined.

Lemma reload_installs_new_database_witness :
  init Fixture.ginModeValid Fixture.getenv Fixture.no_args Fixture.disk
  = Serving Fixture.started
  /\ fst (run (getAS Fixture.ParseIP "8.8.8.8")
            (snd (run (asn_reload Fixture.no_params)
                    (perform_all Fixture.ParseIP
                       [Install defaultAsnDB (Ok Fixture.asn_db')]
                       Fixture.started))))
     = ({| Number := 15169%N; Name := "GOOGLE" |}, None)
  /\ status (fst (run (geo_reload Fixture.no_params)
                    (perform_all Fixture.ParseIP [] Fixture.started)))
     = StatusOK.
Proof.
  split; [reflexivity |]. split.
  - destruct (reload_installs_new_database Fixture.ParseIP
                Fixture.ginModeValid Fixture.getenv Fixture.no_args
                Fixture.disk Fixture.started
                [Install defaultAsnDB (Ok Fixture.asn_db')]
                Fixture.no_params Fixture.asn_db' eq_refl eq_refl)
      as [Hasn _].
    destruct (Hasn eq_refl) as (_ & _ & _ & _ & _ & _ & Hserved & _).
    apply (Hserved "8.8.8.8" Fixture.google eq_refl).
  - destruct (reload_installs_new_database Fixture.ParseIP
                Fixture.ginModeValid Fixture.getenv Fixture.no_args
                Fixture.disk Fixture.started [] Fixture.no_params
                Fixture.city_db eq_refl eq_refl) as [_ Hgeo].
    destruct (Hgeo eq_refl) as (Hstatus & _). exact Hstatus.
Defined.

Lemma concurrent_lookups_answer_as_alone_witness :
  forallb (fun r => negb (is_reload r)) Fixture.lookups = true
  /\ exists r,
       Fixture.lookups !! 1 = Some r
       /\ {| status := StatusOK;
             payload := JAs {| Number := 19281%N; Name := "Quad9" |} |}
          = fst (run (handler Fixture.ParseIP r) Fixture.started).
Proof.
  split; [reflexivity |].
  destruct (concurrent_lookups_answer_as_alone Fixture.ParseIP
              Fixture.lookups Fixture.interleaved Fixture.started eq_refl)
    as (_ & _ & Hans).
  apply (Hans 1). reflexivity.
Defined.

Lemma readers_neither_leaked_nor_closed_twice_witness :
  init Fixture.ginModeValid Fixture.getenv Fixture.no_args Fixture.disk
  = Serving Fixture.started
  /\ forallb reload_alone Fixture.day = true
  /\ closed_once (log (perform_all Fixture.ParseIP Fixture.day Fixture.started))
     = true.
Proof.
  split; [reflexivity |]. split; [reflexivity |].
  apply (readers_neither_leaked_nor_closed_twice Fixture.ParseIP
           Fixture.ginModeValid Fixture.getenv Fixture.no_args Fixture.disk
           Fixture.started Fixture.day eq_refl eq_refl).
Defined.

Lemma settings_precedence_witness :
  init Fixture.ginModeValid Fixture.getenv' Fixture.args' Fixture.disk'
  = Serving Fixture.started'
  /\ addr Fixture.started' = ":7070"
  /\ asnDB Fixture.started' = defaultAsnDB
  /\ geoDB Fixture.started' = Fixture.getenv' "IPINFO_DB_GEOIP".
Proof.
  destruct (settings_precedence Fixture.ginModeValid Fixture.getenv'
              Fixture.args' Fixture.disk' Fixture.started' eq_refl)
    as ((Haddr & _) & (_ & _ & Hasn) & (_ & Hgeo & _) & _).
  split; [reflexivity |].
  split; [apply (Haddr ":7070" eq_refl) |].
  split; [apply (Hasn eq_refl eq_refl) |].
  apply (Hgeo eq_refl). discriminate.
Defined.

Lemma init_serves_or_panics_witness :
  (exists st0,
      init Fixture.ginModeValid Fixture.getenv Fixture.no_args Fixture.disk
      = Serving st0)
  /\ init Fixture.ginModeValid Fixture.getenv Fixture.no_args
       Fixture.disk_without_city
     = Panic Fixture.no_such_file
  /\ exists e,
       init Fixture.ginModeValid Fixture.getenv Fixture.args_bad_mode
         Fixture.disk
       = Panic e.
Proof.
  split; [| split].
  - apply (proj1 (init_serves_or_panics Fixture.ginModeValid Fixture.getenv
                    Fixture.no_args Fixture.disk)).
    split; [reflexivity |].
    split; [exists Fixture.asn_db | exists Fixture.city_db]; reflexivity.
  - apply (proj1 (proj2 (proj2 (init_serves_or_panics Fixture.ginModeValid
                                  Fixture.getenv Fixture.no_args
                                  Fixture.disk_without_city)))
             Fixture.asn_db Fixture.no_such_file);
      reflexivity.
  - apply (proj1 (proj2 (proj2 (proj2 (init_serves_or_panics
                                         Fixture.ginModeValid Fixture.getenv
                                         Fixture.args_bad_mode
                                         Fixture.disk))))).
    reflexivity.
Defined.

Lemma failed_reloads_disturb_nothing_witness :
  init Fixture.ginModeValid Fixture.getenv Fixture.no_args Fixture.disk
  = Serving Fixture.started
  /\ forallb
       (replaces_no_reader
          (perform_all Fixture.ParseIP
             [Install defaultAsnDB (Err Fixture.no_such_file)]
             Fixture.started))
       Fixture.reload_and_lookup = true
  /\ safe
       (log (fst (sched Fixture.lookup_after_close
                    (perform_all Fixture.ParseIP
                       [Install defaultAsnDB (Err Fixture.no_such_file)]
                       Fixture.started,
                     spawn Fixture.ParseIP Fixture.reload_and_lookup))))
     = true.
Proof.
  split; [reflexivity |]. split; [reflexivity |].
  apply (failed_reloads_disturb_nothing Fixture.ParseIP Fixture.ginModeValid
           Fixture.getenv Fixture.no_args Fixture.disk Fixture.started
           [Install defaultAsnDB (Err Fixture.no_such_file)]
           Fixture.reload_and_lookup Fixture.lookup_after_close
           eq_refl eq_refl eq_refl).
Defined.
